(** * locness-datawriter: the incremental export loop of [main.py]

    A shallow embedding of the four classes of [src/main.py]
    ([DynamoDBDataReader], [GoogleDriveUploader], [CSVDataWriter],
    [DataWriterApp]) and the properties of the watermark, the hourly bucket,
    the rendering and the create-or-update synchronisation.

    The program talks to three collaborators that are not part of the
    repository: the wall clock, a DynamoDB table and a Google Drive.  They
    are gathered in a [World] that every method threads through; every
    request sent to a collaborator and every log record is appended to the
    world's trace, in program order. *)

From Stdlib Require Import ZArith Lia Bool Ascii String.
From stdpp Require Import base option list strings gmap.

Open Scope string_scope.
Open Scope Z_scope.

(** ** Data *)

(** A DynamoDB attribute value as the boto3 resource layer hands it to the
    program, identified with the text Python's [str] gives for it (a string
    attribute as it is, a number as the text of its [Decimal]); [Null] is
    [None].  Such values live in [object] columns of a pandas frame, which
    [to_csv] writes with [str]. *)
Inductive scalar :=
| Text (s : string)
| Null.

(** A row is a Python [dict]: insertion-ordered, looked up by key. *)
Definition Row := list (string * scalar).

Fixpoint dict_get (k : string) (d : Row) : option scalar :=
  match d with
  | [] => None
  | (k', v) :: d' => if String.eqb k k' then Some v else dict_get k d'
  end.

(** A timestamp ['%Y-%m-%dT%H:%M:%SZ'] is identified with the instant it
    writes, in whole seconds; on four-digit years the order of the texts is
    the order of the instants. *)
Definition timestamp := Z.

(** One reading of the wall clock: the instant [datetime.now(timezone.utc)]
    sees, and the label [datetime.now().strftime('%Y%m%d_%H')] gives. *)
Record reading := { utc_seconds : Z; local_hour : string }.

(** Python exceptions, by the classes the handlers of [main.py] tell apart. *)
Inductive exception :=
| BotoCoreError (msg : string)
| ClientError (msg : string)
| OtherException (msg : string).

(** What a call does: it returns, it raises, or (for the pagination loop
    only) it is still running when the fuel is spent. *)
Inductive outcome (A : Type) :=
| Return (a : A)
| Raise (e : exception)
| Timeout.
Arguments Return {A} a.
Arguments Raise {A} e.
Arguments Timeout {A}.

(** *** The table: [Table.scan] *)

(** The condition of a scan, with its placeholders. *)
Inductive condition :=
| Gt (path value : string)
| Le (path value : string)
| And (c1 c2 : condition).

Record scan_request := {
  FilterExpression : condition;
  ExpressionAttributeNames : list (string * string);
  ExpressionAttributeValues : list (string * timestamp);
  ExclusiveStartKey : option Row
}.

Record scan_response := {
  Items : option (list Row);
  LastEvaluatedKey : option Row
}.

Inductive scan_outcome :=
| ScanOk (r : scan_response)
| ScanRaise (e : exception).

(** The answer of a library or Drive call: a value, or an exception. *)
Inductive reply (A : Type) :=
| Ok (a : A)
| Refused (e : exception).
Arguments Ok {A} a.
Arguments Refused {A} e.

Fixpoint assoc {A} (k : string) (l : list (string * A)) : option A :=
  match l with
  | [] => None
  | (k', v) :: l' => if String.eqb k k' then Some v else assoc k l'
  end.

(** What the condition of a request says of an item, given the item's
    timestamp attributes. *)
Fixpoint eval_condition (names : list (string * string))
    (values : list (string * timestamp))
    (item : string -> option timestamp) (c : condition) : bool :=
  match c with
  | Gt p v =>
      match assoc p names, assoc v values with
      | Some a, Some bound =>
          match item a with Some t => bound <? t | None => false end
      | _, _ => false
      end
  | Le p v =>
      match assoc p names, assoc v values with
      | Some a, Some bound =>
          match item a with Some t => t <=? bound | None => false end
      | _, _ => false
      end
  | And c1 c2 =>
      eval_condition names values item c1 && eval_condition names values item c2
  end.

Definition request_selects (req : scan_request) (item : string -> option timestamp) : bool :=
  eval_condition (ExpressionAttributeNames req) (ExpressionAttributeValues req)
    item (FilterExpression req).

(** *** The Drive: [files().list], [files().update], [files().create] *)

(** Drive identifiers are non-empty strings the Drive chooses; the program
    only stores, compares and sends them back, so they are opaque here, and
    the test [if existing_file_id] is the test for [None]. *)
Definition file_id := nat.

Record DriveFile := {
  id : file_id;
  name : string;
  parents : list string;
  trashed : bool;
  body : string
}.

(** The query text [name='..' and trashed=false [and '..' in parents]]. *)
Record query := { q_name : string; q_parent : option string }.

Record list_params := {
  q : query;
  list_fields : string;
  driveId : option string;
  corpora : option string;
  includeItemsFromAllDrives : bool;
  list_supportsAllDrives : bool
}.

Record media := { media_bytes : string; mimetype : string; resumable : bool }.

Record update_params := {
  fileId : file_id;
  update_media_body : media;
  update_fields : string;
  update_supportsAllDrives : bool
}.

Record file_metadata := {
  meta_name : string;
  meta_mimeType : string;
  meta_parents : option (list string)
}.

Record create_params := {
  create_body : file_metadata;
  create_media_body : media;
  create_fields : string;
  create_supportsAllDrives : bool
}.

(** Modelled from the spec: the artifact store of section 6
    (list-by-name-within-container, create-with-content-and-parent,
    replace-content-by-id).  [faults] is the Drive's schedule of refusals:
    its head says whether the next request is refused (the request then
    raises and leaves the files as they are); when it is empty no request
    is refused. *)
Record Drive := {
  files : list DriveFile;
  next_id : file_id;
  faults : list bool
}.

(** ** Logging *)

Inductive level := INFO | ERROR.

(** The log records of [main.py], one constructor per format string. *)
Inductive message :=
| Searching_for_data_between (lo hi : timestamp)
| Retrieved_new_items (n : nat)
| Sample_timestamps_found (sample : list scalar)
| Error_reading_from_DynamoDB (e : exception)
| Error_searching_for_existing_file (filename : string) (e : exception)
| Successfully_updated (filename : string) (fid : file_id)
| Successfully_uploaded_new (filename : string) (fid : file_id)
| Error_uploading_updating (filename : string) (e : exception)
| Added_items (n total : nat)
| Generated_CSV (n : nat) (hour : option string)
| Error_generating_CSV (e : exception)
| Reading_new_data
| No_new_data_found
| Hour_boundary_reached
| No_data_for_current_hour
| Starting
| Received_shutdown_signal
| Stopping
| Application_stopped.

Inductive event :=
| Log (lv : level) (m : message)
| TableScan (req : scan_request)
| FilesList (p : list_params)
| FilesUpdate (p : update_params)
| FilesCreate (p : create_params).

(** ** The world *)

(** [clock] is the sequence of readings the wall clock will give, one per
    call of [datetime.now]; [table] answers the scans, by their rank and
    their request; [DataFrame_to_csv] is the pandas library, as the one
    expression [pd.DataFrame(rows).to_csv(index=False)]. *)
Record World := {
  clock : nat -> reading;
  clock_reads : nat;
  table : nat -> scan_request -> scan_outcome;
  scans : nat;
  DataFrame_to_csv : list Row -> reply string;
  drive : Drive;
  trace : list event
}.

Definition emit (e : event) (w : World) : World :=
  {| clock := clock w; clock_reads := clock_reads w; table := table w;
     scans := scans w;
     DataFrame_to_csv := DataFrame_to_csv w; drive := drive w; trace := trace w ++ [e] |}.

Definition log_info (m : message) (w : World) : World := emit (Log INFO m) w.
Definition log_error (m : message) (w : World) : World := emit (Log ERROR m) w.

Definition now (w : World) : reading * World :=
  (clock w (clock_reads w),
   {| clock := clock w; clock_reads := S (clock_reads w); table := table w;
      scans := scans w;
     DataFrame_to_csv := DataFrame_to_csv w; drive := drive w; trace := trace w |}).

Definition set_drive (d : Drive) (w : World) : World :=
  {| clock := clock w; clock_reads := clock_reads w; table := table w;
     scans := scans w;
     DataFrame_to_csv := DataFrame_to_csv w; drive := d; trace := trace w |}.

(** [self.table.scan] on the keyword arguments [req]. *)
Definition table_scan (req : scan_request) (w : World) : scan_outcome * World :=
  (table w (scans w) req,
   emit (TableScan req)
     {| clock := clock w; clock_reads := clock_reads w; table := table w;
        scans := S (scans w);
        DataFrame_to_csv := DataFrame_to_csv w; drive := drive w; trace := trace w |}).

(** ** [DynamoDBDataReader] *)

Record DynamoDBDataReader := { last_read_timestamp : option timestamp }.

Definition one_hour : Z := 3600.

(** The requests of [get_new_data]: the same condition and bounds on every
    page, the continuation key apart. *)
Definition scan_params (last_ts current_ts : timestamp) (start : option Row) : scan_request :=
  {| FilterExpression := And (Gt "#ts" ":last_ts") (Le "#ts" ":current_ts");
     ExpressionAttributeNames := [("#ts", "datetime_utc")];
     ExpressionAttributeValues := [(":last_ts", last_ts); (":current_ts", current_ts)];
     ExclusiveStartKey := start |}.

(** [response.get('Items', [])] *)
Definition get_Items (r : scan_response) : list Row :=
  match Items r with Some l => l | None => [] end.

(** [while 'LastEvaluatedKey' in response: ...] *)
Fixpoint paginate (fuel : nat) (last_ts current_ts : timestamp)
    (response : scan_response) (items : list Row) (w : World)
    : outcome (list Row) * World :=
  match LastEvaluatedKey response with
  | None => (Return items, w)
  | Some k =>
      match fuel with
      | O => (Timeout, w)
      | S fuel' =>
          match table_scan (scan_params last_ts current_ts (Some k)) w with
          | (ScanRaise e, w') => (Raise e, w')
          | (ScanOk response', w') =>
              paginate fuel' last_ts current_ts response' (items ++ get_Items response') w'
          end
      end
  end.

(** The first lines of the [try] block: the watermark is initialised on the
    first read, then the upper bound is read from the clock. *)
Definition init_watermark (self : DynamoDBDataReader) (w : World)
    : timestamp * World :=
  match last_read_timestamp self with
  | Some t => (t, w)
  | None =>
      let '(r, w1) := now w in
      (utc_seconds r - one_hour, w1)
  end.

Definition sample_timestamps (items : list Row) : list scalar :=
  map (fun item => default (Text "N/A") (dict_get "datetime_utc" item)) (take 3 items).

(** The body of the [try] of [get_new_data]. *)
Definition get_new_data_try (fuel : nat) (self : DynamoDBDataReader) (w : World)
    : outcome (list Row) * DynamoDBDataReader * World :=
  let '(last_ts, w) := init_watermark self w in
  let self := {| last_read_timestamp := Some last_ts |} in
  let '(r, w) := now w in
  let current_timestamp := utc_seconds r in
  let w := log_info (Searching_for_data_between last_ts current_timestamp) w in
  match table_scan (scan_params last_ts current_timestamp None) w with
  | (ScanRaise e, w) => (Raise e, self, w)
  | (ScanOk response, w) =>
      match paginate fuel last_ts current_timestamp response (get_Items response) w with
      | (Return items, w) =>
          let self := {| last_read_timestamp := Some current_timestamp |} in
          let w := log_info (Retrieved_new_items (length items)) w in
          let w :=
            match items with
            | [] => w
            | _ :: _ => log_info (Sample_timestamps_found (sample_timestamps items)) w
            end in
          (Return items, self, w)
      | (Raise e, w) => (Raise e, self, w)
      | (Timeout, w) => (Timeout, self, w)
      end
  end.

(** [except (BotoCoreError, ClientError) as e] *)
Definition is_boto_error (e : exception) : bool :=
  match e with
  | BotoCoreError _ | ClientError _ => true
  | OtherException _ => false
  end.

Definition get_new_data (fuel : nat) (self : DynamoDBDataReader) (w : World)
    : outcome (list Row) * DynamoDBDataReader * World :=
  match get_new_data_try fuel self w with
  | (Raise e, self, w) =>
      if is_boto_error e
      then (Return [], self, log_error (Error_reading_from_DynamoDB e) w)
      else (Raise e, self, w)
  | res => res
  end.

(** ** The Drive's operations

    Modelled from the spec: the three operations of the artifact store of
    section 6, on the requests [main.py] builds. *)

Definition take_fault (d : Drive) : bool * Drive :=
  match faults d with
  | [] => (false, d)
  | b :: fs => (b, {| files := files d; next_id := next_id d; faults := fs |})
  end.

Definition http_error : exception := OtherException "HttpError".

Definition matches (qr : query) (f : DriveFile) : bool :=
  String.eqb (name f) (q_name qr)
  && negb (trashed f)
  && match q_parent qr with
     | None => true
     | Some p => existsb (String.eqb p) (parents f)
     end.

(** [self.service.files().list(...).execute()], then [results.get('files', [])]. *)
Definition files_list (p : list_params) (w : World) : reply (list DriveFile) * World :=
  let w := emit (FilesList p) w in
  let '(refused, d) := take_fault (drive w) in
  let w := set_drive d w in
  if refused then (Refused http_error, w)
  else (Ok (List.filter (matches (q p)) (files d)), w).

Definition replace_body (fid : file_id) (content : string) (f : DriveFile) : DriveFile :=
  if Nat.eqb (id f) fid
  then {| id := id f; name := name f; parents := parents f;
          trashed := trashed f; body := content |}
  else f.

(** [self.service.files().update(...).execute()], then [file.get('id')]. *)
Definition files_update (p : update_params) (w : World) : reply file_id * World :=
  let w := emit (FilesUpdate p) w in
  let '(refused, d) := take_fault (drive w) in
  if refused then (Refused http_error, set_drive d w)
  else if existsb (fun f => Nat.eqb (id f) (fileId p)) (files d)
  then (Ok (fileId p),
        set_drive {| files := map (replace_body (fileId p) (media_bytes (update_media_body p))) (files d);
                     next_id := next_id d; faults := faults d |} w)
  else (Refused http_error, set_drive d w).

(** [self.service.files().create(...).execute()], then [file.get('id')]. *)
Definition files_create (p : create_params) (w : World) : reply file_id * World :=
  let w := emit (FilesCreate p) w in
  let '(refused, d) := take_fault (drive w) in
  if refused then (Refused http_error, set_drive d w)
  else
    let f := {| id := next_id d;
                name := meta_name (create_body p);
                parents := default [] (meta_parents (create_body p));
                trashed := false;
                body := media_bytes (create_media_body p) |} in
    (Ok (next_id d),
     set_drive {| files := files d ++ [f]; next_id := S (next_id d); faults := faults d |} w).

(** ** [GoogleDriveUploader] *)

Record GoogleDriveUploader := {
  folder_id : option string;
  shared_drive_id : option string;
  file_cache : gmap string file_id
}.

(** The truth value of an [os.getenv] result: unset and empty are false. *)
Definition truthy (o : option string) : bool :=
  match o with
  | Some s => negb (String.eqb s "")
  | None => false
  end.

Definition cache_file (filename : string) (fid : file_id) (self : GoogleDriveUploader)
    : GoogleDriveUploader :=
  {| folder_id := folder_id self; shared_drive_id := shared_drive_id self;
     file_cache := <[filename := fid]> (file_cache self) |}.

Definition search_params (self : GoogleDriveUploader) (filename : string) : list_params :=
  let query :=
    {| q_name := filename;
       q_parent := if truthy (folder_id self) then folder_id self else None |} in
  if truthy (shared_drive_id self)
  then {| q := query; list_fields := "files(id, name)";
          driveId := shared_drive_id self; corpora := Some "drive";
          includeItemsFromAllDrives := true; list_supportsAllDrives := true |}
  else {| q := query; list_fields := "files(id, name)";
          driveId := None; corpora := None;
          includeItemsFromAllDrives := false; list_supportsAllDrives := false |}.

Definition _find_existing_file (self : GoogleDriveUploader) (filename : string) (w : World)
    : option file_id * GoogleDriveUploader * World :=
  match file_cache self !! filename with
  | Some fid => (Some fid, self, w)
  | None =>
      match files_list (search_params self filename) w with
      | (Ok (f :: _), w) => (Some (id f), cache_file filename (id f) self, w)
      | (Ok [], w) => (None, self, w)
      | (Refused e, w) =>
          (None, self, log_error (Error_searching_for_existing_file filename e) w)
      end
  end.

Definition csv_media (csv_content : string) : media :=
  {| media_bytes := csv_content; mimetype := "text/csv"; resumable := true |}.

Definition update_request (self : GoogleDriveUploader) (fid : file_id) (csv_content : string)
    : update_params :=
  {| fileId := fid; update_media_body := csv_media csv_content; update_fields := "id";
     update_supportsAllDrives := truthy (shared_drive_id self) |}.

Definition create_request (self : GoogleDriveUploader) (filename csv_content : string)
    : create_params :=
  {| create_body :=
       {| meta_name := filename; meta_mimeType := "text/csv";
          meta_parents :=
            if truthy (shared_drive_id self) && truthy (folder_id self)
            then option_map (fun p => [p]) (folder_id self)
            else if truthy (folder_id self) && negb (truthy (shared_drive_id self))
            then option_map (fun p => [p]) (folder_id self)
            else None |};
     create_media_body := csv_media csv_content; create_fields := "id";
     create_supportsAllDrives := truthy (shared_drive_id self) |}.

Definition upload_or_update_csv (self : GoogleDriveUploader) (csv_content filename : string)
    (w : World) : option file_id * GoogleDriveUploader * World :=
  let '(existing_file_id, self, w) := _find_existing_file self filename w in
  match existing_file_id with
  | Some fid =>
      match files_update (update_request self fid csv_content) w with
      | (Ok fid', w) => (Some fid', self, log_info (Successfully_updated filename fid') w)
      | (Refused e, w) => (None, self, log_error (Error_uploading_updating filename e) w)
      end
  | None =>
      match files_create (create_request self filename csv_content) w with
      | (Ok fid', w) =>
          (Some fid', cache_file filename fid' self,
           log_info (Successfully_uploaded_new filename fid') w)
      | (Refused e, w) => (None, self, log_error (Error_uploading_updating filename e) w)
      end
  end.

(** ** pandas *)

Definition quotechar : ascii := "034"%char.
Definition line_feed : ascii := "010"%char.
Definition carriage_return : ascii := "013"%char.
Definition comma : ascii := ","%char.

Fixpoint needs_quotes (s : string) : bool :=
  match s with
  | EmptyString => false
  | String c s' =>
      Ascii.eqb c comma || Ascii.eqb c quotechar || Ascii.eqb c line_feed
      || Ascii.eqb c carriage_return || needs_quotes s'
  end.

Fixpoint double_quotes (s : string) : string :=
  match s with
  | EmptyString => EmptyString
  | String c s' =>
      if Ascii.eqb c quotechar
      then String c (String c (double_quotes s'))
      else String c (double_quotes s')
  end.

(** A field as the [csv] writer puts it, with minimal quoting. *)
Definition csv_field (s : string) : string :=
  if needs_quotes s
  then String quotechar (double_quotes s ++ String quotechar EmptyString)
  else s.

Fixpoint join_fields (fields : list string) : string :=
  match fields with
  | [] => ""
  | [f] => f
  | f :: rest => f ++ String comma (join_fields rest)
  end.

(** A record: its fields, comma-separated, then a line feed; a record made
    of one empty field is written quoted. *)
Definition csv_record (fields : list string) : string :=
  match fields with
  | [EmptyString] => String quotechar (String quotechar (String line_feed EmptyString))
  | _ => join_fields (map csv_field fields) ++ String line_feed EmptyString
  end.

(** The columns of [pd.DataFrame(rows)]: the keys of the rows, each at its
    first appearance. *)
Definition add_key (cols : list string) (k : string) : list string :=
  if existsb (String.eqb k) cols then cols else cols ++ [k].

Definition add_row_keys (cols : list string) (r : Row) : list string :=
  fold_left add_key (map fst r) cols.

Definition columns (rows : list Row) : list string :=
  fold_left add_row_keys rows [].

(** The text of a cell: a missing key and [None] are written empty. *)
Definition cell (r : Row) (col : string) : string :=
  match dict_get col r with
  | Some (Text s) => s
  | Some Null | None => ""
  end.

(** Modelled from the spec: the rendered artifact format of section 6, as
    pandas writes it for a list of dicts of [scalar]s: the header, then one
    record per row. *)
Definition pandas_to_csv (rows : list Row) : string :=
  let cols := columns rows in
  String.concat "" (csv_record cols :: map (fun r => csv_record (map (cell r) cols)) rows).

(** ** [CSVDataWriter] *)

Record CSVDataWriter := {
  path_prefix : string;
  name_prefix : string;
  current_hour_data : list Row;
  current_hour : option string
}.

Definition option_string_eqb (a b : option string) : bool :=
  match a, b with
  | Some x, Some y => String.eqb x y
  | None, None => true
  | _, _ => false
  end.

Definition add_data (self : CSVDataWriter) (data : list Row) (w : World)
    : CSVDataWriter * World :=
  match data with
  | [] => (self, w)
  | _ :: _ =>
      let '(r, w) := now w in
      let hour := local_hour r in
      let self :=
        if option_string_eqb (current_hour self) (Some hour)
        then self
        else {| path_prefix := path_prefix self; name_prefix := name_prefix self;
                current_hour_data := []; current_hour := Some hour |} in
      let self :=
        {| path_prefix := path_prefix self; name_prefix := name_prefix self;
           current_hour_data := current_hour_data self ++ data;
           current_hour := current_hour self |} in
      (self, log_info (Added_items (length data) (length (current_hour_data self))) w)
  end.

Definition _write_hour_data (self : CSVDataWriter) (w : World)
    : option string * CSVDataWriter * World :=
  match current_hour_data self with
  | [] => (None, self, w)
  | _ :: _ =>
      match DataFrame_to_csv w (current_hour_data self) with
      | Ok csv_content =>
          (Some csv_content, self,
           log_info (Generated_CSV (length (current_hour_data self)) (current_hour self)) w)
      | Refused e => (None, self, log_error (Error_generating_CSV e) w)
      end
  end.

Definition get_current_filename (self : CSVDataWriter) (w : World) : string * World :=
  if truthy (current_hour self)
  then (name_prefix self ++ "_" ++ default "" (current_hour self) ++ ".csv", w)
  else
    let '(r, w) := now w in
    (name_prefix self ++ "_" ++ local_hour r ++ ".csv", w).

Definition get_current_csv_content (self : CSVDataWriter) (w : World)
    : option string * CSVDataWriter * World :=
  _write_hour_data self w.

Definition force_write_current_data (self : CSVDataWriter) (w : World)
    : option string * CSVDataWriter * World :=
  _write_hour_data self w.

(** ** [DataWriterApp] *)

Record DataWriterApp := {
  db_reader : DynamoDBDataReader;
  drive_uploader : GoogleDriveUploader;
  csv_writer : CSVDataWriter;
  is_running : bool
}.

Definition set_db_reader (r : DynamoDBDataReader) (self : DataWriterApp) : DataWriterApp :=
  {| db_reader := r; drive_uploader := drive_uploader self;
     csv_writer := csv_writer self; is_running := is_running self |}.

Definition set_drive_uploader (u : GoogleDriveUploader) (self : DataWriterApp) : DataWriterApp :=
  {| db_reader := db_reader self; drive_uploader := u;
     csv_writer := csv_writer self; is_running := is_running self |}.

Definition set_csv_writer (c : CSVDataWriter) (self : DataWriterApp) : DataWriterApp :=
  {| db_reader := db_reader self; drive_uploader := drive_uploader self;
     csv_writer := c; is_running := is_running self |}.

Definition set_is_running (b : bool) (self : DataWriterApp) : DataWriterApp :=
  {| db_reader := db_reader self; drive_uploader := drive_uploader self;
     csv_writer := csv_writer self; is_running := b |}.

(** The truth value of an [Optional[str]]: [None] and the empty text are
    false. *)
Definition nonempty_content (csv_content : option string) : option string :=
  match csv_content with
  | Some EmptyString | None => None
  | Some s => Some s
  end.

Definition read_and_write_data (fuel : nat) (self : DataWriterApp) (w : World)
    : outcome unit * DataWriterApp * World :=
  let w := log_info Reading_new_data w in
  match get_new_data fuel (db_reader self) w with
  | (Return new_data, rd, w) =>
      let self := set_db_reader rd self in
      match new_data with
      | [] => (Return tt, self, log_info No_new_data_found w)
      | _ :: _ =>
          let '(cw, w) := add_data (csv_writer self) new_data w in
          let self := set_csv_writer cw self in
          let '(csv_content, cw, w) := get_current_csv_content (csv_writer self) w in
          let self := set_csv_writer cw self in
          match nonempty_content csv_content with
          | Some content =>
              let '(filename, w) := get_current_filename (csv_writer self) w in
              let '(_, up, w) :=
                upload_or_update_csv (drive_uploader self) content filename w in
              (Return tt, set_drive_uploader up self, w)
          | None => (Return tt, self, w)
          end
      end
  | (Raise e, rd, w) => (Raise e, set_db_reader rd self, w)
  | (Timeout, rd, w) => (Timeout, set_db_reader rd self, w)
  end.

Definition upload_hourly_csv (self : DataWriterApp) (w : World) : DataWriterApp * World :=
  let w := log_info Hour_boundary_reached w in
  let '(csv_content, cw, w) := get_current_csv_content (csv_writer self) w in
  let self := set_csv_writer cw self in
  match nonempty_content csv_content with
  | Some content =>
      let '(filename, w) := get_current_filename (csv_writer self) w in
      let '(_, up, w) := upload_or_update_csv (drive_uploader self) content filename w in
      (set_drive_uploader up self, w)
  | None => (self, log_info No_data_for_current_hour w)
  end.

Definition stop (self : DataWriterApp) (w : World) : DataWriterApp * World :=
  let w := log_info Stopping w in
  let self := set_is_running false self in
  let '(csv_content, cw, w) := get_current_csv_content (csv_writer self) w in
  let self := set_csv_writer cw self in
  let '(self, w) :=
    match nonempty_content csv_content with
    | Some content =>
        let '(filename, w) := get_current_filename (csv_writer self) w in
        let '(_, up, w) := upload_or_update_csv (drive_uploader self) content filename w in
        (set_drive_uploader up self, w)
    | None => (self, w)
    end in
  (self, log_info Application_stopped w).

(** The two jobs [start] registers with the scheduler. *)
Inductive job :=
| Read_and_write_data
| Upload_hourly_csv.

Definition run_job (fuel : nat) (j : job) (self : DataWriterApp) (w : World)
    : outcome unit * DataWriterApp * World :=
  match j with
  | Read_and_write_data => read_and_write_data fuel self w
  | Upload_hourly_csv =>
      let '(self, w) := upload_hourly_csv self w in (Return tt, self, w)
  end.

(** [schedule.run_pending()] over the jobs that fall due, one after the
    other, each run to its end before the next. *)
Fixpoint run_pending (fuel : nat) (due : list job) (self : DataWriterApp) (w : World)
    : outcome unit * DataWriterApp * World :=
  match due with
  | [] => (Return tt, self, w)
  | j :: due' =>
      match run_job fuel j self w with
      | (Return _, self, w) => run_pending fuel due' self w
      | res => res
      end
  end.

(** [start]: [due] is the sequence of jobs that fall due before the
    interrupt; an exception of a job is not caught by the loop's
    [except KeyboardInterrupt]. *)
Definition start (fuel : nat) (due : list job) (self : DataWriterApp) (w : World)
    : outcome unit * DataWriterApp * World :=
  let w := log_info Starting w in
  let self := set_is_running true self in
  match run_pending fuel due self w with
  | (Return _, self, w) =>
      let w := log_info Received_shutdown_signal w in
      let '(self, w) := stop self w in
      (Return tt, self, w)
  | res => res
  end.

(** ** The vocabulary of the properties *)

(** The reader [__init__] builds. *)
Definition new_reader : DynamoDBDataReader := {| last_read_timestamp := None |}.

(** The bounds a fetch computes before its first scan, and the world when
    that scan is sent. *)
Definition fetch_window (self : DynamoDBDataReader) (w : World)
    : timestamp * timestamp * World :=
  let '(last_ts, w) := init_watermark self w in
  let '(r, w) := now w in
  (last_ts, utc_seconds r,
   log_info (Searching_for_data_between last_ts (utc_seconds r)) w).

(** The watermark a fetch starts from: the stored one, or on first use
    one hour before the clock's reading. *)
Definition watermark (self : DynamoDBDataReader) (w : World) : timestamp :=
  fst (init_watermark self w).

(** The clock's reading at the start of a fetch: the upper bound. *)
Definition capture_time (self : DynamoDBDataReader) (w : World) : timestamp :=
  utc_seconds (fst (now (snd (init_watermark self w)))).

(** The pages the table serves after a response: each one is asked for
    with the continuation key of the one before, until a response carries
    none. *)
Inductive page_chain (last_ts current_ts : timestamp)
    : scan_response -> World -> list scan_response -> World -> Prop :=
| chain_end r w :
    LastEvaluatedKey r = None ->
    page_chain last_ts current_ts r w [] w
| chain_next r w k r' w1 rs w' :
    LastEvaluatedKey r = Some k ->
    table_scan (scan_params last_ts current_ts (Some k)) w = (ScanOk r', w1) ->
    page_chain last_ts current_ts r' w1 rs w' ->
    page_chain last_ts current_ts r w (r' :: rs) w'.


Definition sample_log (items : list Row) : list event :=
  match items with
  | [] => []
  | _ :: _ => [Log INFO (Sample_timestamps_found (sample_timestamps items))]
  end.

(** The pages followed up to a scan that raises. *)
Inductive failing_chain (last_ts current_ts : timestamp)
    : scan_response -> World -> list scan_response -> exception -> World -> Prop :=
| fail_here r w k e w' :
    LastEvaluatedKey r = Some k ->
    table_scan (scan_params last_ts current_ts (Some k)) w = (ScanRaise e, w') ->
    failing_chain last_ts current_ts r w [] e w'
| fail_later r w k r' w1 rs e w' :
    LastEvaluatedKey r = Some k ->
    table_scan (scan_params last_ts current_ts (Some k)) w = (ScanOk r', w1) ->
    failing_chain last_ts current_ts r' w1 rs e w' ->
    failing_chain last_ts current_ts r w (r' :: rs) e w'.

(** A fetch cycle in which the table raises [e], on the first scan or after
    the pages [fetched] were served; [w'] is the world after the scan that
    raised. *)
Inductive fetch_fails (self : DynamoDBDataReader) (w : World)
    : list scan_response -> exception -> World -> Prop :=
| fails_at_first_scan lo hi w0 e w1 :
    fetch_window self w = (lo, hi, w0) ->
    table_scan (scan_params lo hi None) w0 = (ScanRaise e, w1) ->
    fetch_fails self w [] e w1
| fails_mid_pagination lo hi w0 first w1 rs e w2 :
    fetch_window self w = (lo, hi, w0) ->
    table_scan (scan_params lo hi None) w0 = (ScanOk first, w1) ->
    failing_chain lo hi first w1 rs e w2 ->
    fetch_fails self w (first :: rs) e w2.

(** The clock never runs backwards. *)
Definition monotone_clock (c : nat -> reading) : Prop :=
  forall i j, (i <= j)%nat -> utc_seconds (c i) <= utc_seconds (c j).

(** The order of watermarks; a reader that has not read yet has none. *)
Definition watermark_le (a b : option timestamp) : Prop :=
  match a, b with
  | None, _ => True
  | Some x, Some y => x <= y
  | Some _, None => False
  end.

(** What happens to a reader in a process run: its own fetch cycles, and,
    between them, whatever else reads the clock or changes the table. *)
Inductive reader_step : DynamoDBDataReader * World -> DynamoDBDataReader * World -> Prop :=
| step_fetch fuel self w o self' w' :
    get_new_data fuel self w = (o, self', w') ->
    reader_step (self, w) (self', w')
| step_other self w w' :
    clock w' = clock w ->
    (clock_reads w <= clock_reads w')%nat ->
    reader_step (self, w) (self, w').

(** The stored watermark is not ahead of the clock. *)
Definition watermark_in_past (st : DynamoDBDataReader * World) : Prop :=
  forall t, last_read_timestamp (fst st) = Some t ->
  forall k, (clock_reads (snd st) <= k)%nat -> t <= utc_seconds (clock (snd st) k).

Definition is_window_request (lo hi : timestamp) (e : event) : Prop :=
  match e with
  | TableScan req =>
      forall item t, item "datetime_utc" = Some t ->
        request_selects req item = (lo <? t) && (t <=? hi)
  | _ => True
  end.

(** The keys of a list, each kept at its first appearance. *)
Fixpoint first_seen (l : list string) : list string :=
  match l with
  | [] => []
  | k :: l' => k :: List.filter (fun k' => negb (String.eqb k' k)) (first_seen l')
  end.

Definition field_names (rows : list Row) : list string :=
  concat (map (map fst) rows).

(** The pandas of the documentation, as the world's library. *)
Definition pandas (rows : list Row) : reply string := Ok (pandas_to_csv rows).

(** The hour label [add_data] computes in a world. *)
Definition hour_now (w : World) : string := local_hour (clock w (clock_reads w)).

(** [add_data] on each batch of a list, in order. *)
Fixpoint add_batches (self : CSVDataWriter) (batches : list (list Row)) (w : World)
    : CSVDataWriter * World :=
  match batches with
  | [] => (self, w)
  | data :: rest =>
      let '(self, w) := add_data self data w in
      add_batches self rest w
  end.

(** The remote objects a file name stands for: the live files of that name
    under the configured folder, as the lookup's query selects them. *)
Definition objects_named (self : GoogleDriveUploader) (filename : string) (d : Drive)
    : list DriveFile :=
  List.filter (matches (q (search_params self filename))) (files d).

Definition with_body (content : string) (f : DriveFile) : DriveFile :=
  {| id := id f; name := name f; parents := parents f;
     trashed := trashed f; body := content |}.

(** The contents sent to the Drive by the requests of a trace. *)
Fixpoint contents_sent (evs : list event) : list string :=
  match evs with
  | [] => []
  | FilesUpdate p :: evs' => media_bytes (update_media_body p) :: contents_sent evs'
  | FilesCreate p :: evs' => media_bytes (create_media_body p) :: contents_sent evs'
  | _ :: evs' => contents_sent evs'
  end.

(** The cache of a file name agrees with the Drive: a cached identifier is
    that of an object of that name. *)
Definition cache_agrees (self : GoogleDriveUploader) (filename : string) (d : Drive) : Prop :=
  forall fid, file_cache self !! filename = Some fid ->
    exists f, In f (objects_named self filename d) /\ id f = fid.

(** A sync whose content request, the update or the create, the Drive
    refuses. *)
Definition sync_refused (self : GoogleDriveUploader) (c filename : string) (w : World)
    (e : exception) (self1 : GoogleDriveUploader) (w2 : World) : Prop :=
  exists existing w1,
    _find_existing_file self filename w = (existing, self1, w1)
    /\ match existing with
       | Some fid => files_update (update_request self1 fid c) w1 = (Refused e, w2)
       | None => files_create (create_request self1 filename c) w1 = (Refused e, w2)
       end.

(** ** A small world, for the examples *)

(** The two rows of the heterogeneous example. *)
Definition rowA : Row := [("a", Text "1"); ("b", Text "2")].

Definition rowB : Row := [("a", Text "3"); ("c", Text "4")].

Definition demo_clock (n : nat) : reading :=
  {| utc_seconds := 1700000000 + 60 * Z.of_nat n; local_hour := "20231114_22" |}.

Definition key1 : Row := [("id", Text "k1")].

Definition key2 : Row := [("id", Text "k2")].

(** A table that serves three pages, the second without [Items]. *)
Definition three_pages (n : nat) (req : scan_request) : scan_outcome :=
  match n with
  | 0%nat => ScanOk {| Items := Some [rowA]; LastEvaluatedKey := Some key1 |}
  | 1%nat => ScanOk {| Items := None; LastEvaluatedKey := Some key2 |}
  | 2%nat => ScanOk {| Items := Some [rowB]; LastEvaluatedKey := None |}
  | _ => ScanOk {| Items := Some []; LastEvaluatedKey := None |}
  end.

(** A table that serves one page and raises on the second. *)
Definition broken_table (n : nat) (req : scan_request) : scan_outcome :=
  match n with
  | 0%nat => ScanOk {| Items := Some [rowA]; LastEvaluatedKey := Some key1 |}
  | _ => ScanRaise (ClientError "ProvisionedThroughputExceededException")
  end.

(** A table with one row, read by the first scan. *)
Definition one_row_table (n : nat) (req : scan_request) : scan_outcome :=
  match n with
  | 0%nat => ScanOk {| Items := Some [rowA]; LastEvaluatedKey := None |}
  | _ => ScanOk {| Items := Some []; LastEvaluatedKey := None |}
  end.

Definition empty_drive : Drive := {| files := []; next_id := 1%nat; faults := [] |}.

Definition world_of (t : nat -> scan_request -> scan_outcome)
    (csv : list Row -> reply string) (d : Drive) : World :=
  {| clock := demo_clock; clock_reads := 0; table := t; scans := 0;
     DataFrame_to_csv := csv; drive := d; trace := [] |}.

Definition demo_world : World := world_of three_pages pandas empty_drive.

Definition demo_uploader : GoogleDriveUploader :=
  {| folder_id := Some "folder"; shared_drive_id := None; file_cache := ∅ |}.

(** The writer [__init__] builds when the environment sets no prefix. *)
Definition new_writer : CSVDataWriter :=
  {| path_prefix := "data/hourly_export"; name_prefix := "locness_data";
     current_hour_data := []; current_hour := None |}.

Definition demo_app : DataWriterApp :=
  {| db_reader := new_reader; drive_uploader := demo_uploader;
     csv_writer := new_writer; is_running := false |}.

Definition demo_filename : string := "locness_data_20231114_22.csv".

Definition two_rows_writer : CSVDataWriter :=
  {| path_prefix := "data/hourly_export"; name_prefix := "locness_data";
     current_hour_data := [rowA; rowB]; current_hour := Some "20231114_22" |}.

Definition previous_hour_writer : CSVDataWriter :=
  {| path_prefix := "data/hourly_export"; name_prefix := "locness_data";
     current_hour_data := [rowA]; current_hour := Some "20231114_21" |}.

Definition two_rows_app : DataWriterApp :=
  {| db_reader := new_reader; drive_uploader := demo_uploader;
     csv_writer := two_rows_writer; is_running := true |}.

(** A pandas that raises. *)
Definition failing_pandas (rows : list Row) : reply string :=
  Refused (OtherException "ValueError").

(** A Drive that answers the first request and refuses the second. *)
Definition refusing_drive : Drive :=
  {| files := []; next_id := 1%nat; faults := [false; true] |}.

(** A Drive that already holds the export of the hour and refuses the
    first request. *)
Definition drive_with_export : Drive :=
  {| files := [{| id := 7%nat; name := demo_filename; parents := ["folder"];
                  trashed := false; body := "a
0
" |}];
     next_id := 8%nat; faults := [true] |}.

(** ** Start-up: the environment, the constructors and [main] *)

(** What the constructors read and call: the variables of the process
    environment, and the answers of three calls that are taken as given:
    [boto3.resource(...)] with [.Table(...)]; [self._get_drive_service()],
    whose body (credential files, Google's authentication) is not embedded;
    and [drives().get(driveId=..., fields='id,name').execute()], which
    answers with the [name] of the drive if it gives one. *)
Record Startup := {
  environ : gmap string string;
  boto3_resource : reply unit;
  _get_drive_service : reply unit;
  drives_get : string -> reply (option string)
}.

(** [os.getenv(key)] and [os.getenv(key, default)]. *)
Definition getenv (env : Startup) (key : string) : option string :=
  environ env !! key.

Definition getenv_default (env : Startup) (key fallback : string) : string :=
  default fallback (environ env !! key).

(** [str(e)] *)
Definition exception_text (e : exception) : string :=
  match e with
  | BotoCoreError msg | ClientError msg | OtherException msg => msg
  end.

(** [ValueError(msg)]: an exception that is not boto's. *)
Definition ValueError (msg : string) : exception := OtherException msg.

(** The log records of start-up. *)
Inductive startup_message :=
| Verified_access_to_shared_drive (drive_name drive_id : string)
| Cannot_access_shared_drive (drive_id : string) (e : exception)
| Make_sure_the_service_account_has_been_added
| Application_error (e : exception).

Definition startup_log := list (level * startup_message).

Definition DynamoDBDataReader__init__ (env : Startup) : reply DynamoDBDataReader :=
  if truthy (getenv env "DYNAMODB_TABLE_NAME")
  then
    match boto3_resource env with
    | Ok _ => Ok {| last_read_timestamp := None |}
    | Refused e => Refused e
    end
  else Refused (ValueError "DYNAMODB_TABLE_NAME environment variable is required").

Definition _verify_shared_drive_access (env : Startup) (shared : string)
    : reply unit * startup_log :=
  match drives_get env shared with
  | Ok drive_name =>
      (Ok tt,
       [(INFO, Verified_access_to_shared_drive (default "Unknown" drive_name) shared)])
  | Refused e =>
      (Refused (ValueError ("Cannot access shared drive: " ++ exception_text e)%string),
       [(ERROR, Cannot_access_shared_drive shared e);
        (ERROR, Make_sure_the_service_account_has_been_added)])
  end.

Definition GoogleDriveUploader__init__ (env : Startup)
    : reply GoogleDriveUploader * startup_log :=
  let self :=
    {| folder_id := getenv env "GOOGLE_DRIVE_FOLDER_ID";
       shared_drive_id := getenv env "GOOGLE_SHARED_DRIVE_ID";
       file_cache := ∅ |} in
  if truthy (getenv env "GOOGLE_CREDENTIALS_FILE")
  then
    match _get_drive_service env with
    | Refused e => (Refused e, [])
    | Ok _ =>
        if truthy (shared_drive_id self)
        then
          match _verify_shared_drive_access env (default "" (shared_drive_id self)) with
          | (Ok _, logs) => (Ok self, logs)
          | (Refused e, logs) => (Refused e, logs)
          end
        else (Ok self, [])
    end
  else (Refused (ValueError "GOOGLE_CREDENTIALS_FILE environment variable is required"), []).

Definition CSVDataWriter__init__ (env : Startup) : CSVDataWriter :=
  {| path_prefix := getenv_default env "CSV_PATH_PREFIX" "data/hourly_export";
     name_prefix := getenv_default env "CSV_NAME_PREFIX" "locness_data";
     current_hour_data := [];
     current_hour := None |}.

Definition DataWriterApp__init__ (env : Startup) : reply DataWriterApp * startup_log :=
  match DynamoDBDataReader__init__ env with
  | Refused e => (Refused e, [])
  | Ok reader =>
      match GoogleDriveUploader__init__ env with
      | (Refused e, logs) => (Refused e, logs)
      | (Ok uploader, logs) =>
          (Ok {| db_reader := reader; drive_uploader := uploader;
                 csv_writer := CSVDataWriter__init__ env; is_running := false |},
           logs)
      end
  end.

(** [main]: [due] is passed on to [start]. *)
Definition main (fuel : nat) (due : list job) (env : Startup) (w : World)
    : outcome unit * option DataWriterApp * World * startup_log :=
  match DataWriterApp__init__ env with
  | (Refused e, logs) => (Raise e, None, w, (logs ++ [(ERROR, Application_error e)])%list)
  | (Ok app, logs) =>
      match start fuel due app w with
      | (Raise e, app, w) =>
          (Raise e, Some app, w, (logs ++ [(ERROR, Application_error e)])%list)
      | (o, app, w) => (o, Some app, w, logs)
      end
  end.

(** [upload_csv], the legacy name. *)
Definition upload_csv (self : GoogleDriveUploader) (csv_content filename : string)
    (w : World) : option file_id * GoogleDriveUploader * World :=
  upload_or_update_csv self csv_content filename w.

(** ** [health.py] *)

Record health_environment := {
  python_version : string;
  aws_region : string;
  dynamodb_table : string;
  google_drive_folder : string
}.

Record health_report := {
  status : string;
  timestamp_iso : string;
  version : string;
  environment : health_environment;
  services : gmap string string
}.

(** [health_check]: the process environment, [os.path.exists],
    [datetime.now().isoformat()] and [os.sys.version] are given.  Neither
    [os.getenv] nor [os.path.exists] raises, so the two [except] branches,
    which alone set the status to unhealthy, are never taken. *)
Definition health_check (os_environ : gmap string string) (path_exists : string -> bool)
    (now_isoformat sys_version : string) : health_report :=
  let status := "healthy" in
  let services : gmap string string := ∅ in
  let '(status, services) :=
    if truthy (os_environ !! "AWS_ACCESS_KEY_ID") && truthy (os_environ !! "AWS_SECRET_ACCESS_KEY")
    then (status, <["aws" := "configured"]> services)
    else ("degraded", <["aws" := "missing_credentials"]> services) in
  let '(status, services) :=
    if truthy (os_environ !! "GOOGLE_CREDENTIALS_FILE")
    then
      if path_exists (default "" (os_environ !! "GOOGLE_CREDENTIALS_FILE"))
      then (status, <["google_drive" := "configured"]> services)
      else ("degraded", <["google_drive" := "credentials_file_missing"]> services)
    else ("degraded", <["google_drive" := "missing_credentials"]> services) in
  {| status := status;
     timestamp_iso := now_isoformat;
     version := "0.1.0";
     environment :=
       {| python_version := sys_version;
          aws_region := default "not_set" (os_environ !! "AWS_REGION");
          dynamodb_table := default "not_set" (os_environ !! "DYNAMODB_TABLE_NAME");
          google_drive_folder := default "not_set" (os_environ !! "GOOGLE_DRIVE_FOLDER_ID") |};
     services := services |}.

(** ** More vocabulary *)

(** The cache agrees with the Drive on every file name. *)
Definition cache_sound (self : GoogleDriveUploader) (d : Drive) : Prop :=
  forall filename, cache_agrees self filename d.

(** What the Drive knows of a file, its content apart. *)
Definition file_meta (f : DriveFile) : file_id * string * list string * bool :=
  (id f, name f, parents f, trashed f).

Definition is_lookup (e : event) : bool :=
  match e with
  | FilesList _ => true
  | _ => false
  end.

(** The file a create request of the uploader adds to the Drive. *)
Definition created_file (self : GoogleDriveUploader) (filename c : string) (d : Drive)
    : DriveFile :=
  {| id := next_id d;
     name := filename;
     parents := default [] (meta_parents (create_body (create_request self filename c)));
     trashed := false;
     body := c |}.

(** The three things an upload can do to the Drive and the cache. *)
Inductive upload_effect (self : GoogleDriveUploader) (c filename : string) (d : Drive)
    : option file_id -> GoogleDriveUploader -> list DriveFile -> Prop :=
| effect_none self' :
    self' = self
    \/ (exists f, file_cache self !! filename = None
                  /\ In f (objects_named self filename d)
                  /\ self' = cache_file filename (id f) self) ->
    upload_effect self c filename d None self' (files d)
| effect_update fid self' :
    existsb (fun f => Nat.eqb (id f) fid) (files d) = true ->
    (self' = self /\ file_cache self !! filename = Some fid)
    \/ (exists f, file_cache self !! filename = None
                  /\ In f (objects_named self filename d) /\ id f = fid
                  /\ self' = cache_file filename fid self) ->
    upload_effect self c filename d (Some fid) self' (map (replace_body fid c) (files d))
| effect_create :
    file_cache self !! filename = None ->
    upload_effect self c filename d (Some (next_id d))
      (cache_file filename (next_id d) self)
      (files d ++ [created_file self filename c d])%list.

(** What an upload may do to a file that was on the Drive. *)
Definition kept_as (c : string) (r : option file_id) (f f' : DriveFile) : Prop :=
  file_meta f' = file_meta f
  /\ (body f' = body f \/ (body f' = c /\ r = Some (id f))).

(** The file name a Drive request looks up or creates. *)
Definition request_filename (e : event) : option string :=
  match e with
  | FilesList p => Some (q_name (q p))
  | FilesCreate p => Some (meta_name (create_body p))
  | _ => None
  end.

Definition names_only (filename : string) (e : event) : Prop :=
  match request_filename e with
  | Some n => n = filename
  | None => True
  end.

(** The invariant of the application and the Drive: the cache is sound and
    the Drive holds at least [n] files. *)
Definition drive_invariant (n : nat) (app : DataWriterApp) (w : World) : Prop :=
  cache_sound (drive_uploader app) (drive w)
  /\ (n <= length (files (drive w)))%nat.

(** The settings without which no application is built. *)
Definition configured (env : Startup) : Prop :=
  truthy (getenv env "DYNAMODB_TABLE_NAME") = true
  /\ truthy (getenv env "GOOGLE_CREDENTIALS_FILE") = true.

(** All that [health_check] looks for is there. *)
Definition fully_configured (os_environ : gmap string string) (path_exists : string -> bool)
    : Prop :=
  truthy (os_environ !! "AWS_ACCESS_KEY_ID") = true
  /\ truthy (os_environ !! "AWS_SECRET_ACCESS_KEY") = true
  /\ truthy (os_environ !! "GOOGLE_CREDENTIALS_FILE") = true
  /\ path_exists (default "" (os_environ !! "GOOGLE_CREDENTIALS_FILE")) = true.

(** ** More examples *)

(** A table whose first scan raises an exception that is not boto's. *)
Definition crashing_table (n : nat) (req : scan_request) : scan_outcome :=
  ScanRaise (OtherException "TypeError").

(** An environment that names a table and no credentials file. *)
Definition env_without_credentials : Startup :=
  {| environ := {[ "DYNAMODB_TABLE_NAME" := "locness" ]};
     boto3_resource := Ok tt;
     _get_drive_service := Ok tt;
     drives_get := fun _ => Refused (OtherException "notFound") |}.

(** An environment that names a shared drive the service cannot reach. *)
Definition env_with_lost_drive : Startup :=
  {| environ := {[ "DYNAMODB_TABLE_NAME" := "locness";
                   "GOOGLE_CREDENTIALS_FILE" := "credentials.json";
                   "GOOGLE_SHARED_DRIVE_ID" := "drive0" ]};
     boto3_resource := Ok tt;
     _get_drive_service := Ok tt;
     drives_get := fun _ => Refused (OtherException "notFound") |}.

(** A wall clock that is set back between two fetches: the first two
    readings give 10000, all later ones 5000. *)
Definition backwards_clock (n : nat) : reading :=
  {| utc_seconds := match n with 0%nat | 1%nat => 10000 | _ => 5000 end;
     local_hour := "19700101_02" |}.

Definition backwards_world : World :=
  {| clock := backwards_clock; clock_reads := 0; table := one_row_table; scans := 0;
     DataFrame_to_csv := pandas; drive := empty_drive; trace := [] |}.

(** A clock whose hour label changes after the third reading. *)
Definition hour_change_clock (n : nat) : reading :=
  {| utc_seconds := 1700000000 + 60 * Z.of_nat n;
     local_hour := if (n <? 3)%nat then "20231114_22" else "20231114_23" |}.

(** A table whose first scan serves one row and whose second scan serves
    another. *)
Definition row_per_scan_table (n : nat) (req : scan_request) : scan_outcome :=
  match n with
  | 0%nat => ScanOk {| Items := Some [rowA]; LastEvaluatedKey := None |}
  | 1%nat => ScanOk {| Items := Some [rowB]; LastEvaluatedKey := None |}
  | _ => ScanOk {| Items := Some []; LastEvaluatedKey := None |}
  end.

Definition hour_change_world : World :=
  {| clock := hour_change_clock; clock_reads := 0; table := row_per_scan_table;
     scans := 0; DataFrame_to_csv := pandas; drive := refusing_drive; trace := [] |}.

Open Scope list_scope.

(** * Properties *)

(** ** The reader: pagination, failure, watermark *)

Lemma trace_emit e w : trace (emit e w) = trace w ++ [e].
Proof. reflexivity. Qed.

Lemma paginate_page_chain lo hi r w rs w' :
  page_chain lo hi r w rs w' ->
  forall fuel items, (length rs <= fuel)%nat ->
    paginate fuel lo hi r items w
    = (Return (items ++ concat (map get_Items rs)), w').
Proof.
  induction 1 as [r w Hend | r w k r' w1 rs w' Hk Hscan _ IH]; intros fuel items Hfuel.
  - destruct fuel; cbn [paginate]; rewrite Hend; simpl; rewrite app_nil_r; reflexivity.
  - destruct fuel as [|fuel]; [simpl in Hfuel; lia|].
    cbn [paginate]. rewrite Hk, Hscan.
    rewrite IH by (simpl in Hfuel; lia).
    simpl. rewrite <- app_assoc. reflexivity.
Qed.


Lemma get_new_data_try_window fuel self w lo hi w0 :
  fetch_window self w = (lo, hi, w0) ->
  get_new_data_try fuel self w =
    match table_scan (scan_params lo hi None) w0 with
    | (ScanRaise e, w) => (Raise e, {| last_read_timestamp := Some lo |}, w)
    | (ScanOk response, w) =>
        match paginate fuel lo hi response (get_Items response) w with
        | (Return items, w) =>
            (Return items, {| last_read_timestamp := Some hi |},
             match items with
             | [] => log_info (Retrieved_new_items (length items)) w
             | _ :: _ =>
                 log_info (Sample_timestamps_found (sample_timestamps items))
                   (log_info (Retrieved_new_items (length items)) w)
             end)
        | (Raise e, w) => (Raise e, {| last_read_timestamp := Some lo |}, w)
        | (Timeout, w) => (Timeout, {| last_read_timestamp := Some lo |}, w)
        end
    end.
Proof.
  unfold fetch_window, get_new_data_try.
  destruct (init_watermark self w) as [last_ts wa].
  destruct (now wa) as [r wb].
  intros [= <- <- <-].
  destruct (table_scan _ _) as [[response|e] w1]; [|reflexivity].
  destruct (paginate _ _ _ _ _ _) as [[items|e|] w2]; reflexivity.
Qed.

Lemma paginate_failing_chain lo hi r w rs e w' :
  failing_chain lo hi r w rs e w' ->
  forall fuel items, (length rs < fuel)%nat ->
    paginate fuel lo hi r items w = (Raise e, w').
Proof.
  induction 1 as [r w k e w' Hk Hscan | r w k r' w1 rs e w' Hk Hscan _ IH];
    intros fuel items Hfuel;
    (destruct fuel as [|fuel]; [simpl in Hfuel; lia|]);
    cbn [paginate]; rewrite Hk, Hscan; [reflexivity|].
  apply IH. simpl in Hfuel. lia.
Qed.



Lemma fetch_fails_try fuel self w fetched e w' :
  fetch_fails self w fetched e w' ->
  (length fetched <= fuel)%nat ->
  get_new_data_try fuel self w
    = (Raise e, {| last_read_timestamp := Some (watermark self w) |}, w').
Proof.
  intros Hfail Hfuel.
  assert (Hlo : forall lo hi w0, fetch_window self w = (lo, hi, w0) -> watermark self w = lo).
  { unfold fetch_window, watermark. intros lo hi w0.
    destruct (init_watermark self w) as [l wa]. destruct (now wa).
    intros [= <- _ _]. reflexivity. }
  destruct Hfail as [lo hi w0 e w1 Hwin Hscan | lo hi w0 first w1 rs e w2 Hwin Hscan Hchain];
    rewrite (get_new_data_try_window _ _ _ _ _ _ Hwin), Hscan, (Hlo _ _ _ Hwin).
  - reflexivity.
  - rewrite (paginate_failing_chain _ _ _ _ _ _ _ Hchain) by (simpl in Hfuel; lia).
    reflexivity.
Qed.

(** C3, as amended.  When a scan of the cycle raises a [BotoCoreError]
    or a [ClientError], at the first page or after pages were already
    fetched, [get_new_data] returns the empty list (the fetched pages are
    dropped), the watermark stays the one the cycle started from (an
    initialised reader is left as it was, so the next cycle asks for the
    same lower bound), the error is logged, and [read_and_write_data]
    returns normally. *)
Theorem get_new_data_source_error fuel self w fetched e w' :
  fetch_fails self w fetched e w' ->
  is_boto_error e = true ->
  (length fetched <= fuel)%nat ->
  exists self' w'',
    get_new_data fuel self w = (Return [], self', w'')
    /\ last_read_timestamp self' = Some (watermark self w)
    /\ (forall t, last_read_timestamp self = Some t -> self' = self)
    /\ (forall wn, watermark self' wn = watermark self w)
    /\ trace w'' = trace w' ++ [Log ERROR (Error_reading_from_DynamoDB e)]
    /\ (forall app w_pre,
          db_reader app = self ->
          w = log_info Reading_new_data w_pre ->
          read_and_write_data fuel app w_pre
            = (Return tt, set_db_reader self' app, log_info No_new_data_found w'')).
Proof.
  intros Hfail Hboto Hfuel.
  assert (Hget : get_new_data fuel self w
                 = (Return [], {| last_read_timestamp := Some (watermark self w) |},
                    log_error (Error_reading_from_DynamoDB e) w')).
  { unfold get_new_data.
    rewrite (fetch_fails_try _ _ _ _ _ _ Hfail Hfuel), Hboto. reflexivity. }
  eexists _, _. split; [exact Hget|]. split; [reflexivity|].
  split; [|split; [reflexivity|split; [reflexivity|]]].
  - intros t Ht. unfold watermark, init_watermark. rewrite Ht.
    destruct self as [l]. simpl in *. congruence.
  - intros app w_pre Hreader ->. unfold read_and_write_data.
    rewrite Hreader, Hget. reflexivity.
Qed.

(** On the table that raises on its second page, the first read returns
    nothing and keeps the watermark of one hour before the start. *)
Lemma get_new_data_source_error_witness :
  exists self' w'',
    get_new_data 1 new_reader (world_of broken_table pandas empty_drive)
      = (Return [], self', w'')
    /\ last_read_timestamp self' = Some 1699996400.
Proof.
  destruct (get_new_data_source_error 1 new_reader
              (world_of broken_table pandas empty_drive)
              [{| Items := Some [rowA]; LastEvaluatedKey := Some key1 |}]
              (ClientError "ProvisionedThroughputExceededException")
              (snd (table_scan (scan_params 1699996400 1700000060 (Some key1))
                 (snd (table_scan (scan_params 1699996400 1700000060 None)
                    (snd (fetch_window new_reader
                            (world_of broken_table pandas empty_drive))))))))
    as (self' & w'' & Hget & Hlast & _).
  - eapply fails_mid_pagination; [reflexivity|reflexivity|].
    eapply fail_here; reflexivity.
  - reflexivity.
  - simpl. lia.
  - exists self', w''. split; [exact Hget|exact Hlast].
Defined.

Lemma paginate_any lo hi fuel :
  forall r items w o w',
    paginate fuel lo hi r items w = (o, w') ->
    clock w' = clock w /\ clock_reads w' = clock_reads w
    /\ exists keys,
         trace w' = trace w
           ++ map (fun k => TableScan (scan_params lo hi (Some k))) keys.
Proof.
  induction fuel as [|fuel IH]; intros r items w o w'; cbn [paginate].
  - destruct (LastEvaluatedKey r); intros [= _ <-];
      (split; [reflexivity|split; [reflexivity|]]);
      exists []; simpl; rewrite app_nil_r; reflexivity.
  - destruct (LastEvaluatedKey r) as [k|].
    + unfold table_scan.
      destruct (table w (scans w) _) as [r'|e].
      * intros H. apply IH in H. destruct H as (Hc & Hr & keys & Ht).
        split; [exact Hc|split; [exact Hr|]].
        exists (k :: keys). rewrite Ht. simpl. rewrite <- app_assoc. reflexivity.
      * intros [= _ <-]. split; [reflexivity|split; [reflexivity|]].
        exists [k]. reflexivity.
    + intros [= _ <-]. split; [reflexivity|split; [reflexivity|]].
      exists []. simpl. rewrite app_nil_r. reflexivity.
Qed.

Lemma scan_params_selects lo hi start item t :
  item "datetime_utc" = Some t ->
  request_selects (scan_params lo hi start) item = (lo <? t) && (t <=? hi).
Proof. intros H. unfold request_selects. simpl. rewrite H. reflexivity. Qed.

Lemma fetch_window_eq self w :
  exists w0, fetch_window self w = (watermark self w, capture_time self w, w0)
    /\ clock w0 = clock w
    /\ trace w0 = trace w
         ++ [Log INFO (Searching_for_data_between (watermark self w) (capture_time self w))]
    /\ match last_read_timestamp self with
       | Some t =>
           watermark self w = t
           /\ capture_time self w = utc_seconds (clock w (clock_reads w))
           /\ clock_reads w0 = S (clock_reads w)
       | None =>
           watermark self w = utc_seconds (clock w (clock_reads w)) - one_hour
           /\ capture_time self w = utc_seconds (clock w (S (clock_reads w)))
           /\ clock_reads w0 = S (S (clock_reads w))
       end.
Proof.
  unfold fetch_window, watermark, capture_time, init_watermark.
  destruct (last_read_timestamp self) as [t|]; simpl;
    eexists; (split; [reflexivity|]); repeat split; reflexivity.
Qed.

Lemma get_new_data_any fuel self w o self' w' :
  get_new_data fuel self w = (o, self', w') ->
  let lo := watermark self w in
  let hi := capture_time self w in
  clock w' = clock w
  /\ clock_reads w' =
       (clock_reads w + match last_read_timestamp self with Some _ => 1 | None => 2 end)%nat
  /\ (last_read_timestamp self' = Some lo \/ last_read_timestamp self' = Some hi)
  /\ (exists evs, trace w' = trace w ++ evs /\ Forall (is_window_request lo hi) evs)
  /\ (forall items sf wf,
        get_new_data_try fuel self w = (Return items, sf, wf) ->
        o = Return items /\ last_read_timestamp self' = Some hi).
Proof.
  intros Hget lo hi.
  destruct (fetch_window_eq self w) as (w0 & Hwin & Hc0 & Ht0 & Hcase).
  fold lo hi in Hwin, Ht0, Hcase.
  assert (Hr0 : clock_reads w0
                = (clock_reads w + match last_read_timestamp self with Some _ => 1 | None => 2 end)%nat).
  { destruct (last_read_timestamp self); destruct Hcase as (_ & _ & ->); lia. }
  clear Hcase.
  revert Hget. unfold get_new_data.
  rewrite (get_new_data_try_window _ _ _ _ _ _ Hwin).
  unfold table_scan.
  set (w1 := emit (TableScan (scan_params lo hi None)) _).
  assert (Hw1 : clock w1 = clock w /\ clock_reads w1 = clock_reads w0
                /\ trace w1 = trace w
                     ++ [Log INFO (Searching_for_data_between lo hi);
                         TableScan (scan_params lo hi None)]).
  { subst w1. simpl. rewrite Ht0, <- app_assoc. auto. }
  destruct Hw1 as (Hc1 & Hr1 & Ht1). clearbody w1.
  assert (Hsel : forall start, is_window_request lo hi (TableScan (scan_params lo hi start))).
  { intros start item t Hitem. apply scan_params_selects, Hitem. }
  assert (Hkeys : forall keys,
             Forall (is_window_request lo hi)
               (map (fun k => TableScan (scan_params lo hi (Some k))) keys)).
  { intros keys. apply Forall_forall. intros ev Hev.
    apply list_elem_of_fmap in Hev. destruct Hev as (k & -> & _). apply Hsel. }
  destruct (table w0 (scans w0) _) as [response|e].
  - destruct (paginate fuel lo hi response (get_Items response) w1) as [[items|e|] w2] eqn:Hpag;
      apply paginate_any in Hpag; destruct Hpag as (Hc2 & Hr2 & keys & Ht2).
    + intros [= <- <- <-].
      split; [destruct items; simpl; congruence|].
      split; [destruct items; simpl; congruence|].
      split; [right; reflexivity|].
      split.
      * exists ([Log INFO (Searching_for_data_between lo hi);
                 TableScan (scan_params lo hi None)]
                ++ map (fun k => TableScan (scan_params lo hi (Some k))) keys
                ++ Log INFO (Retrieved_new_items (length items)) :: sample_log items).
        split.
        -- destruct items; simpl; rewrite Ht2, Ht1, <- ?app_assoc; reflexivity.
        -- apply Forall_app. split; [repeat constructor; apply Hsel|].
           apply Forall_app. split; [apply Hkeys|].
           destruct items; repeat constructor.
      * intros items' sf wf [= <- _ _]. split; reflexivity.
    + destruct (is_boto_error e); intros [= <- <- <-];
        (split; [simpl; congruence|]); (split; [simpl; congruence|]);
        (split; [left; reflexivity|]); (split; [|intros ? ? ? [=]]).
      * exists ([Log INFO (Searching_for_data_between lo hi);
                 TableScan (scan_params lo hi None)]
                ++ map (fun k => TableScan (scan_params lo hi (Some k))) keys
                ++ [Log ERROR (Error_reading_from_DynamoDB e)]).
        split; [simpl; rewrite Ht2, Ht1, <- ?app_assoc; reflexivity|].
        apply Forall_app. split; [repeat constructor; apply Hsel|].
        apply Forall_app. split; [apply Hkeys|repeat constructor].
      * exists ([Log INFO (Searching_for_data_between lo hi);
                 TableScan (scan_params lo hi None)]
                ++ map (fun k => TableScan (scan_params lo hi (Some k))) keys).
        split; [simpl; rewrite Ht2, Ht1, <- ?app_assoc; reflexivity|].
        apply Forall_app. split; [repeat constructor; apply Hsel|apply Hkeys].
    + intros [= <- <- <-].
      split; [congruence|]. split; [congruence|]. split; [left; reflexivity|].
      split; [|intros ? ? ? [=]].
      exists ([Log INFO (Searching_for_data_between lo hi);
               TableScan (scan_params lo hi None)]
              ++ map (fun k => TableScan (scan_params lo hi (Some k))) keys).
      split; [simpl; rewrite Ht2, Ht1, <- ?app_assoc; reflexivity|].
      apply Forall_app. split; [repeat constructor; apply Hsel|apply Hkeys].
  - destruct (is_boto_error e); intros [= <- <- <-];
      (split; [simpl; congruence|]); (split; [simpl; congruence|]);
      (split; [left; reflexivity|]); (split; [|intros ? ? ? [=]]).
    + exists [Log INFO (Searching_for_data_between lo hi);
              TableScan (scan_params lo hi None);
              Log ERROR (Error_reading_from_DynamoDB e)].
      split; [simpl; rewrite Ht1, <- ?app_assoc; reflexivity|].
      repeat constructor. apply Hsel.
    + exists [Log INFO (Searching_for_data_between lo hi);
              TableScan (scan_params lo hi None)].
      split; [exact Ht1|]. repeat constructor. apply Hsel.
Qed.

Lemma reader_step_invariant st st' :
  monotone_clock (clock (snd st)) ->
  watermark_in_past st ->
  reader_step st st' ->
  clock (snd st') = clock (snd st)
  /\ watermark_in_past st'
  /\ watermark_le (last_read_timestamp (fst st)) (last_read_timestamp (fst st')).
Proof.
  intros Hmono Hpast Hstep.
  destruct Hstep as [fuel self w o self' w' Hget | self w w' Hc Hr]; simpl in *.
  - destruct (get_new_data_any _ _ _ _ _ _ Hget) as (Hc & Hr & Hlast & _).
    destruct (fetch_window_eq self w) as (w0 & _ & _ & _ & Hcase).
    unfold watermark_in_past in *. simpl in *.
    split; [exact Hc|].
    destruct (last_read_timestamp self) as [t|] eqn:Hself.
    + destruct Hcase as (Hlo & Hhi & _).
      pose proof (Hpast t eq_refl (clock_reads w) ltac:(lia)) as Ht.
      destruct Hlast as [-> | ->]; rewrite ?Hlo, ?Hhi; simpl.
      * split; [|lia]. intros t' [= <-] k Hk. rewrite Hc. apply Hpast; [reflexivity|lia].
      * split; [|lia]. intros t' [= <-] k Hk. rewrite Hc. apply Hmono. lia.
    + destruct Hcase as (Hlo & Hhi & _).
      split; [|exact I].
      destruct Hlast as [-> | ->]; rewrite ?Hlo, ?Hhi;
        intros t' [= <-] k Hk; rewrite Hc.
      * pose proof (Hmono (clock_reads w) k ltac:(lia)). unfold one_hour. lia.
      * apply Hmono. lia.
  - split; [exact Hc|]. split.
    + intros t Ht k Hk. simpl in *. rewrite Hc. apply (Hpast t Ht). simpl. lia.
    + destruct (last_read_timestamp self); simpl; [lia|exact I].
Qed.

Lemma watermark_le_trans a b c :
  watermark_le a b -> watermark_le b c -> watermark_le a c.
Proof. destruct a, b, c; simpl; try tauto; lia. Qed.

Lemma reader_steps_invariant st st' :
  rtc reader_step st st' ->
  monotone_clock (clock (snd st)) ->
  watermark_in_past st ->
  monotone_clock (clock (snd st'))
  /\ watermark_in_past st'
  /\ watermark_le (last_read_timestamp (fst st)) (last_read_timestamp (fst st')).
Proof.
  induction 1 as [st | st st1 st2 Hstep _ IH]; intros Hmono Hpast.
  - split; [exact Hmono|]. split; [exact Hpast|].
    destruct (last_read_timestamp (fst st)); simpl; [lia|exact I].
  - destruct (reader_step_invariant _ _ Hmono Hpast Hstep) as (Hc & Hpast1 & Hle1).
    destruct IH as (Hmono2 & Hpast2 & Hle2); [rewrite Hc; exact Hmono|exact Hpast1|].
    split; [exact Hmono2|]. split; [exact Hpast2|].
    eapply watermark_le_trans; eassumption.
Qed.

Lemma get_new_data_sends_window fuel self w :
  let lo := watermark self w in
  let hi := capture_time self w in
  exists o self' w' evs,
    get_new_data fuel self w = (o, self', w')
    /\ trace w' = trace w
         ++ Log INFO (Searching_for_data_between lo hi)
         :: TableScan (scan_params lo hi None) :: evs
    /\ Forall (is_window_request lo hi) evs.
Proof.
  intros lo hi.
  destruct (fetch_window_eq self w) as (w0 & Hwin & _ & Ht0 & _).
  fold lo hi in Hwin, Ht0.
  unfold get_new_data.
  rewrite (get_new_data_try_window _ _ _ _ _ _ Hwin).
  unfold table_scan.
  set (w1 := emit (TableScan (scan_params lo hi None)) _).
  assert (Ht1 : trace w1 = trace w
                  ++ [Log INFO (Searching_for_data_between lo hi);
                      TableScan (scan_params lo hi None)]).
  { subst w1. simpl. rewrite Ht0, <- app_assoc. reflexivity. }
  clearbody w1.
  assert (Hkeys : forall keys,
             Forall (is_window_request lo hi)
               (map (fun k => TableScan (scan_params lo hi (Some k))) keys)).
  { intros keys. apply Forall_forall. intros ev Hev.
    apply list_elem_of_fmap in Hev. destruct Hev as (k & -> & _).
    intros item t Hitem. apply scan_params_selects, Hitem. }
  destruct (table w0 (scans w0) _) as [response|e].
  - destruct (paginate fuel lo hi response (get_Items response) w1) as [[items|e|] w2] eqn:Hpag;
      apply paginate_any in Hpag; destruct Hpag as (_ & _ & keys & Ht2).
    + eexists _, _, _,
        (map (fun k => TableScan (scan_params lo hi (Some k))) keys
         ++ Log INFO (Retrieved_new_items (length items)) :: sample_log items).
      split; [reflexivity|]. split.
      * destruct items; simpl; rewrite Ht2, Ht1, <- ?app_assoc; reflexivity.
      * apply Forall_app. split; [apply Hkeys|]. destruct items; repeat constructor.
    + destruct (is_boto_error e).
      * eexists _, _, _,
          (map (fun k => TableScan (scan_params lo hi (Some k))) keys
           ++ [Log ERROR (Error_reading_from_DynamoDB e)]).
        split; [reflexivity|]. split.
        -- simpl. rewrite Ht2, Ht1, <- ?app_assoc. reflexivity.
        -- apply Forall_app. split; [apply Hkeys|repeat constructor].
      * eexists _, _, _, (map (fun k => TableScan (scan_params lo hi (Some k))) keys).
        split; [reflexivity|]. split; [|apply Hkeys].
        rewrite Ht2, Ht1, <- ?app_assoc. reflexivity.
    + eexists _, _, _, (map (fun k => TableScan (scan_params lo hi (Some k))) keys).
      split; [reflexivity|]. split; [|apply Hkeys].
      rewrite Ht2, Ht1, <- ?app_assoc. reflexivity.
  - destruct (is_boto_error e).
    + eexists _, _, _, [Log ERROR (Error_reading_from_DynamoDB e)].
      split; [reflexivity|]. split; [|repeat constructor].
      simpl. rewrite Ht1, <- ?app_assoc. reflexivity.
    + eexists _, _, _, []. split; [reflexivity|]. split; [exact Ht1|constructor].
Qed.

Lemma get_new_data_page_chain fuel self w lo hi w0 first w1 rest w2 :
  fetch_window self w = (lo, hi, w0) ->
  table_scan (scan_params lo hi None) w0 = (ScanOk first, w1) ->
  page_chain lo hi first w1 rest w2 ->
  (length rest <= fuel)%nat ->
  exists w3,
    get_new_data fuel self w
    = (Return (concat (map get_Items (first :: rest))),
       {| last_read_timestamp := Some hi |}, w3).
Proof.
  intros Hwin Hscan Hchain Hfuel.
  unfold get_new_data.
  rewrite (get_new_data_try_window _ _ _ _ _ _ Hwin), Hscan.
  rewrite (paginate_page_chain _ _ _ _ _ _ Hchain) by exact Hfuel.
  eexists. reflexivity.
Qed.

(** C2, as amended.  Under a wall clock whose successive readings never
    decrease, the watermark of a reader never decreases along a process
    run.  Every fetch, whatever the clock, works on the window from the
    previous watermark (excluded; one hour before the first reading when
    the reader has none) to the reading taken at its start, before any scan
    (included): it logs the window, sends the first scan for it, and every
    scan it sends selects exactly the items whose timestamp lies in that
    window; the watermark it leaves is one of the two bounds.  When the
    table answers the first scan and serves a chain of pages that ends,
    the fetch returns the rows of all the pages and the new watermark is
    the reading taken at the start, whatever the rows hold; it is the
    lower bound of the next fetch. *)
Theorem watermark_never_decreases w0 :
  monotone_clock (clock w0) ->
  (forall st1 st2,
      rtc reader_step (new_reader, w0) st1 ->
      rtc reader_step st1 st2 ->
      watermark_le (last_read_timestamp (fst st1)) (last_read_timestamp (fst st2)))
  /\ (forall fuel self w,
        let lo := watermark self w in
        let hi := capture_time self w in
        lo = default (utc_seconds (clock w (clock_reads w)) - one_hour)
                     (last_read_timestamp self)
        /\ hi = utc_seconds
                  (clock w (clock_reads w
                            + match last_read_timestamp self with
                              | Some _ => 0
                              | None => 1
                              end)%nat)
        /\ (forall start item t,
              item "datetime_utc" = Some t ->
              request_selects (scan_params lo hi start) item = (lo <? t) && (t <=? hi))
        /\ exists o self' w' evs,
             get_new_data fuel self w = (o, self', w')
             /\ trace w' = trace w
                  ++ Log INFO (Searching_for_data_between lo hi)
                  :: TableScan (scan_params lo hi None) :: evs
             /\ Forall (is_window_request lo hi) evs
             /\ (last_read_timestamp self' = Some lo \/ last_read_timestamp self' = Some hi)
             /\ (forall items sf wf,
                   get_new_data_try fuel self w = (Return items, sf, wf) ->
                   o = Return items /\ last_read_timestamp self' = Some hi))
  /\ (forall fuel self w w1 first w2 rest w3,
        let lo := watermark self w in
        let hi := capture_time self w in
        fetch_window self w = (lo, hi, w1) ->
        table_scan (scan_params lo hi None) w1 = (ScanOk first, w2) ->
        page_chain lo hi first w2 rest w3 ->
        (length rest <= fuel)%nat ->
        exists self' w',
          get_new_data fuel self w
          = (Return (concat (map get_Items (first :: rest))), self', w')
          /\ last_read_timestamp self' = Some hi
          /\ forall wn, watermark self' wn = hi).
Proof.
  intros Hmono. split; [|split].
  - intros st1 st2 H01 H12.
    destruct (reader_steps_invariant _ _ H01 Hmono) as (Hmono1 & Hpast1 & _).
    { intros t [=]. }
    apply (reader_steps_invariant _ _ H12 Hmono1 Hpast1).
  - intros fuel self w lo hi.
    destruct (fetch_window_eq self w) as (wa & _ & _ & _ & Hcase).
    split; [|split; [|split]].
    + subst lo. destruct (last_read_timestamp self); destruct Hcase as (-> & _); reflexivity.
    + subst hi. destruct (last_read_timestamp self); destruct Hcase as (_ & -> & _);
        f_equal; f_equal; lia.
    + intros start item t. apply scan_params_selects.
    + destruct (get_new_data_sends_window fuel self w) as (o & self' & w' & evs & Hget & Ht & Hev).
      exists o, self', w', evs.
      destruct (get_new_data_any _ _ _ _ _ _ Hget) as (_ & _ & Hlast & _ & Hok).
      split; [exact Hget|]. split; [exact Ht|]. split; [exact Hev|].
      split; [exact Hlast|exact Hok].
  - intros fuel self w w1 first w2 rest w3 lo hi Hwin Hscan Hchain Hfuel.
    destruct (get_new_data_page_chain _ _ _ _ _ _ _ _ _ _ Hwin Hscan Hchain Hfuel)
      as (w' & Hget).
    eexists _, w'. split; [exact Hget|]. split; reflexivity.
Qed.

(** The demo clock advances by a minute at each reading. *)
Lemma demo_clock_monotone : monotone_clock demo_clock.
Proof. intros i j Hij. unfold demo_clock. cbn [utc_seconds]. lia. Qed.

(** Two reads in a row on the demo world. *)
Lemma watermark_never_decreases_witness :
  monotone_clock (clock demo_world)
  /\ forall o1 s1 w1 o2 s2 w2,
       get_new_data 2 new_reader demo_world = (o1, s1, w1) ->
       get_new_data 2 s1 w1 = (o2, s2, w2) ->
       watermark_le (last_read_timestamp s1) (last_read_timestamp s2).
Proof.
  split; [exact demo_clock_monotone|].
  intros o1 s1 w1 o2 s2 w2 H1 H2.
  destruct (watermark_never_decreases demo_world demo_clock_monotone) as [Hmono _].
  apply (Hmono (s1, w1) (s2, w2)).
  - apply rtc_once. exact (step_fetch 2 _ _ _ _ _ H1).
  - apply rtc_once. exact (step_fetch 2 _ _ _ _ _ H2).
Defined.

(** ** The writer: columns, rendering, the hourly bucket *)

Lemma filter_filter_ext {A} (f g h : A -> bool) (l : list A) :
  (forall x, h x = f x && g x) ->
  List.filter f (List.filter g l) = List.filter h l.
Proof.
  intros Hh. induction l as [|x l IH]; simpl; [reflexivity|].
  rewrite Hh. destruct (g x); simpl.
  - destruct (f x); simpl; rewrite IH; reflexivity.
  - rewrite andb_false_r. exact IH.
Qed.

Lemma existsb_snoc k acc k' :
  existsb (String.eqb k) (acc ++ [k'])
  = existsb (String.eqb k) acc || String.eqb k k'.
Proof. rewrite existsb_app. simpl. rewrite orb_false_r. reflexivity. Qed.

Lemma fold_add_key l : forall acc,
  fold_left add_key l acc
  = acc ++ List.filter (fun k => negb (existsb (String.eqb k) acc)) (first_seen l).
Proof.
  induction l as [|k l IH]; intros acc; simpl.
  - rewrite app_nil_r. reflexivity.
  - unfold add_key at 2. destruct (existsb (String.eqb k) acc) eqn:Hk; simpl.
    + rewrite IH. f_equal. symmetry. apply filter_filter_ext.
      intros x. destruct (String.eqb_spec x k) as [->|_]; simpl.
      * rewrite Hk. reflexivity.
      * rewrite andb_true_r. reflexivity.
    + rewrite IH, <- app_assoc. simpl. do 2 f_equal. symmetry.
      apply filter_filter_ext. intros x. rewrite existsb_snoc, negb_orb. reflexivity.
Qed.

Lemma fold_add_row_keys rows : forall acc,
  fold_left add_row_keys rows acc = fold_left add_key (field_names rows) acc.
Proof.
  induction rows as [|r rows IH]; intros acc; simpl; [reflexivity|].
  unfold field_names in *. simpl. rewrite fold_left_app. apply IH.
Qed.

Lemma columns_first_seen rows : columns rows = first_seen (field_names rows).
Proof.
  unfold columns. rewrite fold_add_row_keys, fold_add_key. simpl.
  induction (first_seen (field_names rows)) as [|x l IH]; simpl; congruence.
Qed.

Lemma first_seen_In l k : In k (first_seen l) <-> In k l.
Proof.
  induction l as [|x l IH]; simpl; [tauto|].
  rewrite filter_In, IH.
  destruct (String.eqb_spec k x) as [->|Hne]; simpl.
  - split; intros _; left; reflexivity.
  - split.
    + intros [H|[H _]]; [left; exact H|right; exact H].
    + intros [H|H]; [left; exact H|right; split; [exact H|reflexivity]].
Qed.

Lemma first_seen_NoDup l : List.NoDup (first_seen l).
Proof.
  induction l as [|x l IH]; simpl; constructor.
  - rewrite filter_In. intros [_ H]. rewrite String.eqb_refl in H. discriminate.
  - apply List.NoDup_filter, IH.
Qed.

Lemma field_names_In rows k :
  In k (field_names rows) <-> exists r, In r rows /\ In k (map fst r).
Proof.
  unfold field_names. rewrite in_concat. split.
  - intros (ks & Hks & Hk). apply in_map_iff in Hks. destruct Hks as (r & <- & Hr).
    exists r. split; assumption.
  - intros (r & Hr & Hk). exists (map fst r). split; [|exact Hk].
    apply in_map_iff. exists r. split; [reflexivity|exact Hr].
Qed.

(** C4.  With pandas as documented, [get_current_csv_content] returns
    [None] on an empty bucket and otherwise the table of the bucket: a
    header made of the field names of all the rows, each at its first
    appearance, then one record per row with an empty cell for a missing
    field; the bucket [{a:1,b:2}], [{a:3,c:4}] gives the header [a,b,c] and
    the records [1,2,] and [3,,4]. *)
Theorem render_current_bucket self w :
  DataFrame_to_csv w = pandas ->
  let rows := current_hour_data self in
  (rows = [] -> get_current_csv_content self w = (None, self, w))
  /\ (rows <> [] ->
      get_current_csv_content self w
        = (Some (pandas_to_csv rows), self,
           log_info (Generated_CSV (length rows) (current_hour self)) w))
  /\ pandas_to_csv rows
     = String.concat ""
         (csv_record (columns rows)
          :: map (fun r => csv_record (map (cell r) (columns rows))) rows)
  /\ columns rows = first_seen (field_names rows)
  /\ (forall k, In k (columns rows) <-> exists r, In r rows /\ In k (map fst r))
  /\ List.NoDup (columns rows)
  /\ (forall r col, dict_get col r = None -> cell r col = "")
  /\ (rows = [rowA; rowB] ->
      columns rows = ["a"; "b"; "c"]
      /\ map (fun r => map (cell r) (columns rows)) rows
         = [["1"; "2"; ""]; ["3"; ""; "4"]]
      /\ pandas_to_csv rows = "a,b,c
1,2,
3,,4
").
Proof.
  intros Hpandas rows.
  split; [|split; [|split; [|split; [|split; [|split; [|split]]]]]].
  - intros Hrows. unfold get_current_csv_content, _write_hour_data.
    fold rows. rewrite Hrows. reflexivity.
  - intros Hrows. unfold get_current_csv_content, _write_hour_data.
    fold rows. rewrite Hpandas. destruct rows; [congruence|reflexivity].
  - reflexivity.
  - apply columns_first_seen.
  - intros k. rewrite columns_first_seen, first_seen_In. apply field_names_In.
  - rewrite columns_first_seen. apply first_seen_NoDup.
  - intros r col H. unfold cell. rewrite H. reflexivity.
  - intros ->. repeat split; reflexivity.
Qed.

(** The rendering of the two rows of the example. *)
Lemma render_current_bucket_witness :
  fst (fst (get_current_csv_content two_rows_writer demo_world))
  = Some "a,b,c
1,2,
3,,4
".
Proof.
  destruct (render_current_bucket two_rows_writer demo_world eq_refl)
    as (_ & Hsome & _ & _ & _ & _ & _ & Hexample).
  rewrite Hsome by discriminate.
  destruct (Hexample eq_refl) as (_ & _ & ->). reflexivity.
Defined.

(** C7.  Two calls of [get_current_csv_content] in a row give the same
    output, and neither changes the writer: the rows and the hour label of
    the bucket are as before. *)
Theorem render_twice_same_output self w :
  let '(c1, self1, w1) := get_current_csv_content self w in
  let '(c2, self2, w2) := get_current_csv_content self1 w1 in
  c2 = c1
  /\ self1 = self /\ self2 = self
  /\ current_hour_data self2 = current_hour_data self
  /\ current_hour self2 = current_hour self.
Proof.
  unfold get_current_csv_content, _write_hour_data.
  destruct (current_hour_data self) as [|r rows] eqn:Hrows.
  - rewrite Hrows. auto.
  - destruct (DataFrame_to_csv w (r :: rows)) as [content|e] eqn:Hcsv;
      rewrite Hrows; simpl; rewrite Hcsv; auto.
Qed.

Lemma option_string_eqb_eq a b : option_string_eqb a b = true <-> a = b.
Proof.
  destruct a as [x|], b as [y|]; simpl; try (split; congruence).
  rewrite String.eqb_eq. split; congruence.
Qed.

Lemma add_data_nonempty self data w :
  data <> [] ->
  exists self' w',
    add_data self data w = (self', w')
    /\ current_hour self' = Some (hour_now w)
    /\ name_prefix self' = name_prefix self
    /\ (current_hour self = Some (hour_now w) ->
        current_hour_data self' = current_hour_data self ++ data)
    /\ (current_hour self <> Some (hour_now w) -> current_hour_data self' = data)
    /\ clock w' = clock w /\ clock_reads w' = S (clock_reads w)
    /\ DataFrame_to_csv w' = DataFrame_to_csv w
    /\ drive w' = drive w
    /\ trace w' = trace w
         ++ [Log INFO (Added_items (length data) (length (current_hour_data self')))].
Proof.
  intros Hdata. unfold add_data, hour_now.
  destruct data as [|d data]; [congruence|].
  cbn [now].
  destruct (option_string_eqb (current_hour self) _) eqn:Heq.
  - apply option_string_eqb_eq in Heq.
    eexists _, _. split; [reflexivity|]. simpl.
    repeat split; auto; congruence.
  - assert (Hne : current_hour self <> Some (local_hour (clock w (clock_reads w)))).
    { intros H. apply option_string_eqb_eq in H. congruence. }
    eexists _, _. split; [reflexivity|]. simpl.
    repeat split; auto; congruence.
Qed.

Lemma add_batches_same_hour batches : forall self w h,
  current_hour self = Some h ->
  (forall k, (clock_reads w <= k)%nat -> local_hour (clock w k) = h) ->
  current_hour_data (fst (add_batches self batches w))
  = current_hour_data self ++ concat batches.
Proof.
  induction batches as [|data rest IH]; intros self w h Hh Hclock; simpl.
  - rewrite app_nil_r. reflexivity.
  - destruct data as [|d data].
    + simpl. apply (IH self w h Hh Hclock).
    + destruct (add_data_nonempty self (d :: data) w ltac:(congruence))
        as (self' & w' & Hadd & Hh' & _ & Hsame & _ & Hc & Hr & _).
      rewrite Hadd.
      assert (Hnow : hour_now w = h) by (apply Hclock; lia).
      rewrite (IH self' w' h).
      * rewrite Hsame by congruence. rewrite <- app_assoc. reflexivity.
      * congruence.
      * intros k Hk. rewrite Hc. apply Hclock. lia.
Qed.

(** C6.  [add_data] does nothing on an empty list; otherwise it labels the
    bucket with the current hour, appends the rows after the old ones when
    the label is unchanged, and starts from an empty bucket when the label
    differs, so that the bucket, and its rendering, hold only the rows added
    since the change, in arrival order. *)
Theorem add_data_bucket self data w :
  add_data self [] w = (self, w)
  /\ (data <> [] ->
      exists self' w',
        add_data self data w = (self', w')
        /\ current_hour self' = Some (hour_now w)
        /\ (current_hour self = Some (hour_now w) ->
            current_hour_data self' = current_hour_data self ++ data)
        /\ (current_hour self <> Some (hour_now w) ->
            current_hour_data self' = data
            /\ fst (fst (get_current_csv_content self' w'))
               = match DataFrame_to_csv w data with
                 | Ok csv_content => Some csv_content
                 | Refused _ => None
                 end
            /\ forall later,
                 (forall k, (clock_reads w <= k)%nat -> local_hour (clock w k) = hour_now w) ->
                 current_hour_data (fst (add_batches self' later w'))
                 = data ++ concat later)).
Proof.
  split; [reflexivity|].
  intros Hdata.
  destruct (add_data_nonempty self data w Hdata)
    as (self' & w' & Hadd & Hh' & _ & Hsame & Hnew & Hc & Hr & Hpd & _).
  exists self', w'. split; [exact Hadd|]. split; [exact Hh'|]. split; [exact Hsame|].
  intros Hne. split; [exact (Hnew Hne)|]. split.
  { unfold get_current_csv_content, _write_hour_data.
    rewrite (Hnew Hne), Hpd. destruct data; [congruence|].
    destruct (DataFrame_to_csv w _); reflexivity. }
  intros later Hclock.
  rewrite (add_batches_same_hour later self' w' (hour_now w) Hh').
  - rewrite (Hnew Hne). reflexivity.
  - intros k Hk. rewrite Hc. apply Hclock. lia.
Qed.

(** A row added in the next hour replaces the bucket of the previous one. *)
Lemma add_data_bucket_witness :
  exists self' w',
    add_data previous_hour_writer [rowB] demo_world = (self', w')
    /\ current_hour self' = Some "20231114_22"
    /\ current_hour_data self' = [rowB].
Proof.
  destruct (add_data_bucket previous_hour_writer [rowB] demo_world) as [_ H].
  destruct H as (self' & w' & Hadd & Hhour & _ & Hnew); [discriminate|].
  exists self', w'. split; [exact Hadd|]. split; [exact Hhour|].
  apply Hnew. discriminate.
Defined.

(** C10.  When pandas raises on the bucket, [get_current_csv_content]
    logs the error and returns [None], as it does for an empty bucket; the
    writer is unchanged, and [read_and_write_data] ends the tick without
    sending anything to the Drive. *)
Theorem render_failure_skips_sync self w e :
  current_hour_data self <> [] ->
  DataFrame_to_csv w (current_hour_data self) = Refused e ->
  get_current_csv_content self w = (None, self, log_error (Error_generating_CSV e) w)
  /\ (forall empty w0,
        current_hour_data empty = [] ->
        fst (fst (get_current_csv_content empty w0))
        = fst (fst (get_current_csv_content self w)))
  /\ (forall fuel app wa new_data rd w1 w2,
        get_new_data fuel (db_reader app) (log_info Reading_new_data wa)
          = (Return new_data, rd, w1) ->
        new_data <> [] ->
        add_data (csv_writer app) new_data w1 = (self, w2) ->
        w = w2 ->
        read_and_write_data fuel app wa
          = (Return tt, set_csv_writer self (set_db_reader rd app),
             log_error (Error_generating_CSV e) w2)
        /\ drive (log_error (Error_generating_CSV e) w2) = drive w2).
Proof.
  intros Hrows Hcsv.
  assert (Hget : get_current_csv_content self w
                 = (None, self, log_error (Error_generating_CSV e) w)).
  { unfold get_current_csv_content, _write_hour_data. rewrite Hcsv.
    destruct (current_hour_data self); [congruence|reflexivity]. }
  split; [exact Hget|]. split.
  - intros empty w0 Hempty. rewrite Hget.
    unfold get_current_csv_content, _write_hour_data. rewrite Hempty. reflexivity.
  - intros fuel app wa new_data rd w1 w2 Hfetch Hnew Hadd ->.
    split; [|reflexivity].
    unfold read_and_write_data. rewrite Hfetch.
    destruct new_data as [|d new_data]; [congruence|].
    cbn [csv_writer set_db_reader]. rewrite Hadd.
    cbn [csv_writer set_csv_writer]. rewrite Hget. reflexivity.
Qed.

(** With a pandas that raises, a bucket of two rows renders to [None]. *)
Lemma render_failure_skips_sync_witness :
  get_current_csv_content two_rows_writer (world_of three_pages failing_pandas empty_drive)
  = (None, two_rows_writer,
     log_error (Error_generating_CSV (OtherException "ValueError"))
       (world_of three_pages failing_pandas empty_drive)).
Proof.
  apply (render_failure_skips_sync two_rows_writer
           (world_of three_pages failing_pandas empty_drive)
           (OtherException "ValueError")).
  - discriminate.
  - reflexivity.
Defined.

(** ** The uploader and the application *)

Lemma q_search_params self filename :
  q (search_params self filename)
  = {| q_name := filename;
       q_parent := if truthy (folder_id self) then folder_id self else None |}.
Proof. unfold search_params. destruct (truthy (shared_drive_id self)); reflexivity. Qed.

Lemma matches_replace_body qr fid c f :
  matches qr (replace_body fid c f) = matches qr f.
Proof. unfold replace_body. destruct (Nat.eqb (id f) fid); reflexivity. Qed.

Lemma filter_map_replace_body qr fid c l :
  List.filter (matches qr) (map (replace_body fid c) l)
  = map (replace_body fid c) (List.filter (matches qr) l).
Proof.
  induction l as [|f l IH]; simpl; [reflexivity|].
  rewrite matches_replace_body. destruct (matches qr f); simpl; rewrite IH; reflexivity.
Qed.

Lemma created_file_matches self filename c n :
  matches (q (search_params self filename))
    {| id := n;
       name := meta_name (create_body (create_request self filename c));
       parents := default [] (meta_parents (create_body (create_request self filename c)));
       trashed := false;
       body := media_bytes (create_media_body (create_request self filename c)) |}
  = true.
Proof.
  rewrite q_search_params. unfold matches, create_request. simpl.
  rewrite String.eqb_refl. simpl.
  destruct (folder_id self) as [p|]; simpl; [|reflexivity].
  destruct (String.eqb p ""); simpl; [reflexivity|].
  destruct (truthy (shared_drive_id self)); simpl; rewrite String.eqb_refl; reflexivity.
Qed.

Lemma upload_cached self filename c w fid f :
  faults (drive w) = [] ->
  file_cache self !! filename = Some fid ->
  objects_named self filename (drive w) = [f] ->
  id f = fid ->
  exists w',
    upload_or_update_csv self c filename w = (Some fid, self, w')
    /\ faults (drive w') = []
    /\ objects_named self filename (drive w') = [with_body c f]
    /\ length (files (drive w')) = length (files (drive w))
    /\ trace w' = trace w
         ++ [FilesUpdate (update_request self fid c);
             Log INFO (Successfully_updated filename fid)].
Proof.
  intros Hfaults Hcache Hobj Hid.
  unfold upload_or_update_csv, _find_existing_file. rewrite Hcache.
  unfold files_update, take_fault. cbn [drive emit]. rewrite Hfaults.
  assert (Hin : In f (files (drive w))).
  { assert (H : In f (objects_named self filename (drive w))) by (rewrite Hobj; left; reflexivity).
    apply filter_In in H. tauto. }
  assert (Hex : existsb (fun f0 => Nat.eqb (id f0) (fileId (update_request self fid c)))
                  (files (drive w)) = true).
  { apply existsb_exists. exists f. split; [exact Hin|]. simpl. apply Nat.eqb_eq, Hid. }
  rewrite Hex.
  eexists. split; [reflexivity|]. cbn [drive set_drive log_info emit trace faults files].
  split; [exact Hfaults|]. split; [|split].
  - unfold objects_named in *. cbn [files]. rewrite filter_map_replace_body, Hobj.
    simpl. unfold replace_body, with_body. rewrite Hid, Nat.eqb_refl. reflexivity.
  - rewrite length_map. reflexivity.
  - rewrite <- app_assoc. reflexivity.
Qed.

Lemma objects_named_cache_file self filename fid name' d :
  objects_named (cache_file name' fid self) filename d = objects_named self filename d.
Proof. unfold objects_named. rewrite !q_search_params. reflexivity. Qed.

Lemma upload_first self filename c w :
  faults (drive w) = [] ->
  (length (objects_named self filename (drive w)) <= 1)%nat ->
  cache_agrees self filename (drive w) ->
  exists fid self' w' f,
    upload_or_update_csv self c filename w = (Some fid, self', w')
    /\ faults (drive w') = []
    /\ file_cache self' !! filename = Some fid
    /\ folder_id self' = folder_id self
    /\ shared_drive_id self' = shared_drive_id self
    /\ objects_named self' filename (drive w') = [f]
    /\ id f = fid /\ body f = c
    /\ (length (files (drive w'))
        = length (files (drive w))
          + (if objects_named self filename (drive w) is [] then 1 else 0))%nat
    /\ (exists evs, trace w' = trace w ++ evs /\ contents_sent evs = [c]).
Proof.
  intros Hfaults Hlen Hagree.
  destruct (file_cache self !! filename) as [fid|] eqn:Hcache.
  - destruct (Hagree fid Hcache) as (f & Hin & Hid).
    destruct (objects_named self filename (drive w)) as [|f0 [|f1 l]] eqn:Hobj;
      [destruct Hin | | simpl in Hlen; lia].
    destruct Hin as [->|[]].
    destruct (upload_cached self filename c w fid f Hfaults Hcache Hobj Hid)
      as (w' & Hup & Hf' & Hobj' & Hlen' & Htr).
    exists fid, self, w', (with_body c f).
    repeat split; try assumption; try reflexivity.
    + rewrite Hlen'. lia.
    + eexists. split; [exact Htr|reflexivity].
  - unfold upload_or_update_csv, _find_existing_file. rewrite Hcache.
    unfold files_list, take_fault. cbn [drive emit]. rewrite Hfaults.
    fold (objects_named self filename (drive w)).
    destruct (objects_named self filename (drive w)) as [|f [|f1 l]] eqn:Hobj;
      [ | | simpl in Hlen; lia].
    + unfold files_create, take_fault. cbn [drive emit set_drive]. rewrite Hfaults.
      eexists _, _, _, _. split; [reflexivity|].
      cbn [drive set_drive log_info emit trace faults files].
      split; [exact Hfaults|].
      split; [apply lookup_insert_eq|].
      split; [reflexivity|]. split; [reflexivity|].
      split.
      { rewrite objects_named_cache_file. unfold objects_named in *. cbn [files].
        rewrite List.filter_app, Hobj. cbn [List.filter app].
        rewrite (created_file_matches self filename c (next_id (drive w))). reflexivity. }
      split; [reflexivity|split; [reflexivity|split]].
      * rewrite length_app. simpl. lia.
      * eexists. split; [rewrite <- !app_assoc; reflexivity|reflexivity].
    + assert (Hin : In f (files (drive w))).
      { assert (H : In f (objects_named self filename (drive w)))
          by (rewrite Hobj; left; reflexivity).
        apply filter_In in H. tauto. }
      unfold files_update, take_fault. cbn [drive emit set_drive]. rewrite Hfaults.
      assert (Hex : existsb (fun f0 => Nat.eqb (id f0) (id f)) (files (drive w)) = true).
      { apply existsb_exists. exists f. split; [exact Hin|]. apply Nat.eqb_refl. }
      cbn [fileId update_request]. rewrite Hex.
      eexists _, _, _, _. split; [reflexivity|].
      cbn [drive set_drive log_info emit trace faults files].
      split; [exact Hfaults|].
      split; [apply lookup_insert_eq|].
      split; [reflexivity|]. split; [reflexivity|].
      split.
      { rewrite objects_named_cache_file. unfold objects_named in *. cbn [files].
        rewrite filter_map_replace_body, Hobj. reflexivity. }
      split; [|split; [|split]].
      * unfold replace_body. rewrite Nat.eqb_refl. reflexivity.
      * unfold replace_body. rewrite Nat.eqb_refl. reflexivity.
      * rewrite length_map. lia.
      * eexists. split; [rewrite <- !app_assoc; reflexivity|reflexivity].
Qed.

(** C1, as amended.  When the Drive refuses no request, holds at most one
    object of the file name and agrees with the cache, two calls of
    [upload_or_update_csv] for that name leave exactly one object of the
    name, with the content of the second call, and both return its
    identifier.  The lookup answers from the cache without a request,
    caches the identifier of an object it finds, and leaves the cache as
    it was when it finds none. *)
Theorem upload_twice_one_object self filename c1 c2 w :
  faults (drive w) = [] ->
  (length (objects_named self filename (drive w)) <= 1)%nat ->
  cache_agrees self filename (drive w) ->
  (exists fid self1 w1 self2 w2 f,
      upload_or_update_csv self c1 filename w = (Some fid, self1, w1)
      /\ upload_or_update_csv self1 c2 filename w1 = (Some fid, self2, w2)
      /\ objects_named self2 filename (drive w2) = [f]
      /\ id f = fid /\ body f = c2
      /\ file_cache self2 !! filename = Some fid
      /\ (length (files (drive w2))
          = length (files (drive w))
            + (if objects_named self filename (drive w) is [] then 1 else 0))%nat)
  /\ (forall fid,
        file_cache self !! filename = Some fid ->
        _find_existing_file self filename w = (Some fid, self, w))
  /\ (forall f rest w',
        file_cache self !! filename = None ->
        files_list (search_params self filename) w = (Ok (f :: rest), w') ->
        _find_existing_file self filename w
          = (Some (id f), cache_file filename (id f) self, w'))
  /\ (forall w',
        file_cache self !! filename = None ->
        files_list (search_params self filename) w = (Ok [], w') ->
        _find_existing_file self filename w = (None, self, w')).
Proof.
  intros Hfaults Hlen Hagree.
  split; [|split; [|split]].
  - destruct (upload_first self filename c1 w Hfaults Hlen Hagree)
      as (fid & self1 & w1 & f1 & Hup1 & Hf1 & Hc1 & Hfo & Hsh & Hobj1 & Hid1 & _ & Hlen1 & _).
    destruct (upload_cached self1 filename c2 w1 fid f1 Hf1 Hc1 Hobj1 Hid1)
      as (w2 & Hup2 & _ & Hobj2 & Hlen2 & _).
    exists fid, self1, w1, self1, w2, (with_body c2 f1).
    repeat split; try assumption. congruence.
  - intros fid Hc. unfold _find_existing_file. rewrite Hc. reflexivity.
  - intros f rest w' Hc Hl. unfold _find_existing_file. rewrite Hc, Hl. reflexivity.
  - intros w' Hc Hl. unfold _find_existing_file. rewrite Hc, Hl. reflexivity.
Qed.

(** Two uploads of the hour's file to an empty Drive. *)
Lemma upload_twice_one_object_witness :
  exists fid self1 w1 self2 w2 f,
    upload_or_update_csv demo_uploader "a
1
" demo_filename demo_world = (Some fid, self1, w1)
    /\ upload_or_update_csv self1 "a
1
2
" demo_filename w1 = (Some fid, self2, w2)
    /\ objects_named self2 demo_filename (drive w2) = [f]
    /\ body f = "a
1
2
".
Proof.
  destruct (upload_twice_one_object demo_uploader demo_filename "a
1
" "a
1
2
" demo_world) as [H _].
  - reflexivity.
  - simpl. lia.
  - intros fid Hfid. vm_compute in Hfid. discriminate.
  - destruct H as (fid & self1 & w1 & self2 & w2 & f & H1 & H2 & Hobj & _ & Hbody & _).
    exists fid, self1, w1, self2, w2, f. repeat split; assumption.
Defined.

Ltac break_drive :=
  simpl;
  repeat (match goal with
    | |- context [match faults ?d with _ => _ end] => destruct (faults d) as [|[|] ?]
    | |- context [match ?l with [] => _ | _ :: _ => _ end] => is_var l; destruct l as [|[|] ?]
    | |- context [match List.filter ?f ?l with _ => _ end] => destruct (List.filter f l)
    | |- context [if existsb ?f ?l then _ else _] => destruct (existsb f l)
    end; simpl).

Lemma upload_any self c filename w r self' w' :
  upload_or_update_csv self c filename w = (r, self', w') ->
  clock w' = clock w /\ clock_reads w' = clock_reads w
  /\ DataFrame_to_csv w' = DataFrame_to_csv w
  /\ exists evs, trace w' = trace w ++ evs /\ contents_sent evs = [c].
Proof.
  unfold upload_or_update_csv, _find_existing_file.
  destruct (file_cache self !! filename) as [fid|];
    unfold files_list, files_update, files_create, take_fault,
      log_error, log_info, set_drive, emit;
    break_drive; intros [= <- <- <-]; simpl;
    repeat split; eexists; (split; [rewrite <- ?app_assoc; reflexivity|reflexivity]).
Qed.

Lemma get_current_filename_any self w filename w' :
  get_current_filename self w = (filename, w') ->
  trace w' = trace w /\ drive w' = drive w /\ DataFrame_to_csv w' = DataFrame_to_csv w.
Proof.
  unfold get_current_filename. destruct (truthy (current_hour self)).
  - intros [= _ <-]. auto.
  - unfold now. intros [= _ <-]. auto.
Qed.

Lemma nonempty_content_Some s : s <> "" -> nonempty_content (Some s) = Some s.
Proof. destruct s; [congruence|reflexivity]. Qed.

Lemma add_data_rows self data w :
  data <> [] ->
  exists self' w',
    add_data self data w = (self', w')
    /\ current_hour_data self'
       = (if option_string_eqb (current_hour self) (Some (hour_now w))
          then current_hour_data self ++ data else data).
Proof.
  intros Hdata. unfold add_data, hour_now. destruct data as [|d data]; [congruence|].
  cbn [now]. eexists _, _. split; [reflexivity|].
  destruct (option_string_eqb _ _); reflexivity.
Qed.

(** C5, as amended.  When the Drive refuses the update or the create,
    [upload_or_update_csv] logs the error and returns [None], raising
    nothing.  A tick that fetched rows returns normally whatever the sync
    did, with the bucket as [add_data] left it, labelled with the hour of
    the tick: the rows it held followed by the new ones when the label is
    unchanged, the new rows alone when the label has changed (the rows of
    an earlier hour, synced or not, are dropped); the one content the tick
    sends is the rendering of that bucket.  A tick that fetched no row
    sends nothing to the Drive and leaves the bucket as it was; the
    hour-boundary job sends the rendering of a bucket that holds rows. *)
Theorem sync_failure_keeps_bucket :
  (forall self c filename w e self1 w2,
      sync_refused self c filename w e self1 w2 ->
      upload_or_update_csv self c filename w
        = (None, self1, log_error (Error_uploading_updating filename e) w2))
  /\ (forall fuel app w new_data rd w1,
        get_new_data fuel (db_reader app) (log_info Reading_new_data w)
          = (Return new_data, rd, w1) ->
        new_data <> [] ->
        exists cw w2 app' w',
          add_data (csv_writer app) new_data w1 = (cw, w2)
          /\ read_and_write_data fuel app w = (Return tt, app', w')
          /\ csv_writer app' = cw
          /\ current_hour cw = Some (hour_now w1)
          /\ (current_hour (csv_writer app) = Some (hour_now w1) ->
              current_hour_data cw = current_hour_data (csv_writer app) ++ new_data)
          /\ (current_hour (csv_writer app) <> Some (hour_now w1) ->
              current_hour_data cw = new_data)
          /\ (forall content,
                DataFrame_to_csv w2 (current_hour_data cw) = Ok content ->
                content <> "" ->
                exists evs, trace w' = trace w2 ++ evs /\ contents_sent evs = [content]))
  /\ (forall fuel app w rd w1,
        get_new_data fuel (db_reader app) (log_info Reading_new_data w)
          = (Return [], rd, w1) ->
        exists app' w',
          read_and_write_data fuel app w = (Return tt, app', w')
          /\ csv_writer app' = csv_writer app
          /\ drive w' = drive w1
          /\ trace w' = trace w1 ++ [Log INFO No_new_data_found])
  /\ (forall app w content,
        DataFrame_to_csv w (current_hour_data (csv_writer app)) = Ok content ->
        current_hour_data (csv_writer app) <> [] ->
        content <> "" ->
        exists app' w' evs,
          upload_hourly_csv app w = (app', w')
          /\ csv_writer app' = csv_writer app
          /\ trace w' = trace w ++ Log INFO Hour_boundary_reached :: evs
          /\ contents_sent evs = [content]).
Proof.
  split; [|split; [|split]].
  - intros self c filename w e self1 w2 (existing & w1 & Hfind & Hreq).
    unfold upload_or_update_csv. rewrite Hfind.
    destruct existing as [fid|]; rewrite Hreq; reflexivity.
  - intros fuel app w new_data rd w1 Hfetch Hnew.
    destruct (add_data_rows (csv_writer app) new_data w1 Hnew) as (cw & w2 & Hadd & Hrows).
    assert (Hbucket : current_hour cw = Some (hour_now w1)
              /\ (current_hour (csv_writer app) = Some (hour_now w1) ->
                  current_hour_data cw = current_hour_data (csv_writer app) ++ new_data)
              /\ (current_hour (csv_writer app) <> Some (hour_now w1) ->
                  current_hour_data cw = new_data)).
    { destruct (add_data_nonempty (csv_writer app) new_data w1 Hnew)
        as (cw' & w2' & Hadd' & Hlabel & _ & Hsame & Hother & _).
      rewrite Hadd in Hadd'. injection Hadd' as <- <-.
      split; [exact Hlabel|]. split; assumption. }
    destruct Hbucket as (Hlabel & Hsame & Hother).
    exists cw, w2.
    unfold read_and_write_data. rewrite Hfetch.
    destruct new_data as [|d new_data]; [congruence|].
    cbn [csv_writer set_db_reader]. rewrite Hadd.
    cbn [csv_writer set_csv_writer].
    unfold get_current_csv_content, _write_hour_data.
    destruct (current_hour_data cw) as [|r rows] eqn:Hcw.
    { exfalso. rewrite Hrows in Hcw. destruct (option_string_eqb _ _).
      - destruct (current_hour_data (csv_writer app)); discriminate.
      - discriminate. }
    destruct (DataFrame_to_csv w2 (r :: rows)) as [content|e] eqn:Hcsv.
    + destruct content as [|a content].
      * cbn [nonempty_content]. eexists _, _.
        split; [reflexivity|]. split; [reflexivity|]. split; [reflexivity|].
        split; [exact Hlabel|]. split; [exact Hsame|]. split; [exact Hother|].
        intros content [= <-] H. congruence.
      * cbn [nonempty_content csv_writer set_csv_writer drive_uploader].
        destruct (get_current_filename cw _) as [filename w4] eqn:Hname.
        destruct (upload_or_update_csv _ _ _ _) as [[r0 up] w5] eqn:Hup.
        eexists _, _.
        split; [reflexivity|]. split; [reflexivity|]. split; [reflexivity|].
        split; [exact Hlabel|]. split; [exact Hsame|]. split; [exact Hother|].
        intros content' [= <-] _.
        apply get_current_filename_any in Hname. destruct Hname as (Ht4 & _).
        apply upload_any in Hup. destruct Hup as (_ & _ & _ & evs & Ht5 & Hsent).
        exists (Log INFO (Generated_CSV (length (r :: rows)) (current_hour cw)) :: evs).
        split; [|exact Hsent].
        rewrite Ht5, Ht4. simpl. rewrite <- app_assoc. reflexivity.
    + cbn [nonempty_content]. eexists _, _.
      split; [reflexivity|]. split; [reflexivity|]. split; [reflexivity|].
      split; [exact Hlabel|]. split; [exact Hsame|]. split; [exact Hother|].
      intros content [=].
  - intros fuel app w rd w1 Hfetch. unfold read_and_write_data. rewrite Hfetch.
    eexists _, _. split; [reflexivity|]. repeat split; reflexivity.
  - intros app w content Hcsv Hrows Hcontent. unfold upload_hourly_csv.
    unfold get_current_csv_content, _write_hour_data.
    destruct (current_hour_data (csv_writer app)) as [|r rows] eqn:Hbucket; [congruence|].
    cbn [DataFrame_to_csv log_info emit]. rewrite Hcsv.
    rewrite nonempty_content_Some by exact Hcontent.
    cbn [csv_writer set_csv_writer drive_uploader].
    destruct (get_current_filename _ _) as [filename w4] eqn:Hname.
    destruct (upload_or_update_csv _ _ _ _) as [[r0 up] w5] eqn:Hup.
    apply get_current_filename_any in Hname. destruct Hname as (Ht4 & _).
    apply upload_any in Hup. destruct Hup as (_ & _ & _ & evs & Ht5 & Hsent).
    eexists _, _, (Log INFO (Generated_CSV (length (r :: rows))
                               (current_hour (csv_writer app))) :: evs).
    split; [reflexivity|]. split; [reflexivity|]. split; [|exact Hsent].
    rewrite Ht5, Ht4. simpl. rewrite <- !app_assoc. reflexivity.
Qed.

(** The tick whose create is refused keeps the row it fetched. *)
Lemma sync_failure_keeps_bucket_witness :
  exists app' w',
    read_and_write_data 1 demo_app (world_of one_row_table pandas refusing_drive)
      = (Return tt, app', w')
    /\ current_hour_data (csv_writer app') = [rowA].
Proof.
  destruct sync_failure_keeps_bucket as (_ & Htick & _).
  destruct (Htick 1%nat demo_app (world_of one_row_table pandas refusing_drive)
              [rowA] {| last_read_timestamp := Some 1700000060 |}
              (snd (get_new_data 1 new_reader
                      (log_info Reading_new_data
                         (world_of one_row_table pandas refusing_drive)))))
    as (cw & w2 & app' & w' & _ & Hrun & Hcw & _ & _ & Hnew & _).
  - reflexivity.
  - discriminate.
  - exists app', w'. split; [exact Hrun|]. rewrite Hcw. apply Hnew. discriminate.
Defined.

Lemma csv_record_nonempty fields : csv_record fields <> "".
Proof.
  unfold csv_record.
  assert (H : forall s, (s ++ String line_feed EmptyString)%string <> "").
  { intros s. destruct s; discriminate. }
  destruct fields as [|[|a f] [|g l]]; try apply H; discriminate.
Qed.

Lemma pandas_to_csv_nonempty rows : pandas_to_csv rows <> "".
Proof.
  unfold pandas_to_csv. simpl.
  pose proof (csv_record_nonempty (columns rows)) as H.
  destruct (csv_record (columns rows)) as [|a s]; [congruence|].
  destruct rows; discriminate.
Qed.

(** C9.  With pandas as documented, [stop] clears [is_running], then, when
    the bucket holds rows, sends their rendering to the Drive exactly once,
    and logs that the application stopped last; on an empty bucket it
    sends nothing.  [start] ends with this [stop] when the interrupt
    comes. *)
Theorem stop_flushes_once app w :
  DataFrame_to_csv w = pandas ->
  let rows := current_hour_data (csv_writer app) in
  exists app' w' evs,
    stop app w = (app', w')
    /\ is_running app' = false
    /\ csv_writer app' = csv_writer app
    /\ trace w' = trace w ++ Log INFO Stopping :: evs ++ [Log INFO Application_stopped]
    /\ contents_sent evs
       = match rows with [] => [] | _ :: _ => [pandas_to_csv rows] end
    /\ (rows = [] -> evs = [] /\ drive w' = drive w)
    /\ (forall fuel due app0 w0 w_pre,
          run_pending fuel due (set_is_running true app0) (log_info Starting w0)
            = (Return tt, app, w_pre) ->
          w = log_info Received_shutdown_signal w_pre ->
          start fuel due app0 w0 = (Return tt, app', w')).
Proof.
  intros Hpandas rows.
  cut (exists app' w' evs,
          stop app w = (app', w')
          /\ is_running app' = false
          /\ csv_writer app' = csv_writer app
          /\ trace w' = trace w ++ Log INFO Stopping :: evs ++ [Log INFO Application_stopped]
          /\ contents_sent evs
             = match rows with [] => [] | _ :: _ => [pandas_to_csv rows] end
          /\ (rows = [] -> evs = [] /\ drive w' = drive w)).
  { intros (app' & w' & evs & Hstop & H1 & H2 & H3 & H4 & H5).
    exists app', w', evs. repeat split; try assumption; try (apply H5; assumption).
    intros fuel due app0 w0 w_pre Hrun ->. unfold start. rewrite Hrun, Hstop.
    reflexivity. }
  unfold stop.
  cbn [csv_writer set_is_running].
  unfold get_current_csv_content, _write_hour_data. fold rows.
  destruct rows as [|r rows'] eqn:Hrows.
  - cbn [nonempty_content]. eexists _, _, [].
    split; [reflexivity|]. repeat split; try reflexivity.
    simpl. rewrite <- app_assoc. reflexivity.
  - cbn [DataFrame_to_csv log_info emit]. rewrite Hpandas. unfold pandas.
    rewrite nonempty_content_Some by apply pandas_to_csv_nonempty.
    cbn [csv_writer set_csv_writer drive_uploader].
    destruct (get_current_filename _ _) as [filename w4] eqn:Hname.
    destruct (upload_or_update_csv _ _ _ _) as [[r0 up] w5] eqn:Hup.
    apply get_current_filename_any in Hname. destruct Hname as (Ht4 & _).
    apply upload_any in Hup. destruct Hup as (_ & _ & _ & evs & Ht5 & Hsent).
    eexists _, _, (Log INFO (Generated_CSV (length (r :: rows')) (current_hour (csv_writer app))) :: evs).
    split; [reflexivity|]. split; [reflexivity|]. split; [reflexivity|].
    split; [|split; [exact Hsent|intros [=]]].
    cbn [trace log_info emit]. rewrite Ht5, Ht4. simpl.
    rewrite <- !app_assoc. reflexivity.
Qed.

(** Stopping with the two rows of the example in the bucket. *)
Lemma stop_flushes_once_witness :
  exists app' w' evs,
    stop two_rows_app demo_world = (app', w')
    /\ is_running app' = false
    /\ trace w' = trace demo_world
         ++ Log INFO Stopping :: evs ++ [Log INFO Application_stopped]
    /\ contents_sent evs = ["a,b,c
1,2,
3,,4
"].
Proof.
  destruct (stop_flushes_once two_rows_app demo_world eq_refl)
    as (app' & w' & evs & Hstop & Hrun & _ & Htrace & Hsent & _).
  exists app', w', evs. repeat split; assumption.
Defined.

(** ** Where the claims fail as stated *)

(** C1, as stated, fails: an object that is not found is not cached, the
    next lookup asks the Drive again; and when the Drive refuses the
    lookup, the upload creates a second object next to the existing one. *)
Lemma lookup_misses_are_not_cached :
  (let '(r1, up1, w1) := _find_existing_file demo_uploader demo_filename demo_world in
   let '(r2, up2, w2) := _find_existing_file up1 demo_filename w1 in
   r1 = None
   /\ file_cache up1 !! demo_filename = None
   /\ trace w2
      = [FilesList (search_params demo_uploader demo_filename);
         FilesList (search_params demo_uploader demo_filename)])
  /\ (let '(r, up, w) :=
         upload_or_update_csv demo_uploader "a
1
" demo_filename (world_of three_pages pandas drive_with_export) in
       r = Some 8%nat
       /\ map id (objects_named up demo_filename (drive w)) = [7%nat; 8%nat]).
Proof. vm_compute. repeat split. Qed.

(** C2, as stated, fails: the watermark is the clock's reading, whatever it
    is; when the wall clock is set back between two fetches that both
    succeed, the watermark goes from 10000 to 5000. *)
Lemma watermark_follows_clock_backwards :
  let '(o1, s1, w1) := get_new_data 0 new_reader backwards_world in
  let '(o2, s2, w2) := get_new_data 0 s1 w1 in
  o1 = Return [rowA] /\ o2 = Return []
  /\ last_read_timestamp s1 = Some 10000
  /\ last_read_timestamp s2 = Some 5000
  /\ ~ watermark_le (last_read_timestamp s1) (last_read_timestamp s2).
Proof.
  vm_compute. repeat split. intros H. apply H. reflexivity.
Qed.

(** C3, as stated, fails: an exception of a scan that is neither a
    [BotoCoreError] nor a [ClientError] is not caught; the job raises it,
    no error is logged, and [start] ends with it, the scan being the last
    thing that happened.  And a reader that has not read yet does not keep
    its missing watermark when the first fetch fails on a [ClientError]:
    it keeps the lower bound that fetch used, one hour before its start. *)
Lemma scan_errors_not_all_absorbed :
  (let '(o, app, w) :=
     run_pending 1 [Read_and_write_data] demo_app
       (world_of crashing_table pandas empty_drive) in
   o = Raise (OtherException "TypeError")
   /\ Forall (fun ev => match ev with Log ERROR _ => False | _ => True end) (trace w)
   /\ (let '(o', _, w') :=
         start 1 [Read_and_write_data] demo_app
           (world_of crashing_table pandas empty_drive) in
       o' = Raise (OtherException "TypeError")
       /\ last (trace w') = Some (TableScan (scan_params 1699996400 1700000060 None))))
  /\ (let '(o, self', w) :=
        get_new_data 1 new_reader (world_of broken_table pandas empty_drive) in
      o = Return []
      /\ last_read_timestamp new_reader = None
      /\ last_read_timestamp self' = Some 1699996400).
Proof. vm_compute. repeat split; repeat constructor. Qed.

(** C5, as stated, fails.  After a refused sync, a tick that fetches no row
    does not try again: the Drive has received the content once and holds
    no file, while the bucket still holds the row.  And when the next rows
    arrive in another hour, the row whose sync was refused is dropped from
    the bucket: the second tick sends the new row alone, under the name of
    the new hour, and the first row never reaches the Drive. *)
Lemma failed_sync_not_always_retried :
  (let '(o, app, w) :=
     run_pending 1 [Read_and_write_data; Read_and_write_data] demo_app
       (world_of one_row_table pandas refusing_drive) in
   o = Return tt
   /\ current_hour_data (csv_writer app) = [rowA]
   /\ files (drive w) = []
   /\ contents_sent (trace w) = ["a,b
1,2
"]
   /\ last (trace w) = Some (Log INFO No_new_data_found))
  /\ (let '(o, app, w) :=
        run_pending 1 [Read_and_write_data; Read_and_write_data] demo_app
          hour_change_world in
      o = Return tt
      /\ current_hour_data (csv_writer app) = [rowB]
      /\ current_hour (csv_writer app) = Some "20231114_23"
      /\ contents_sent (trace w) = ["a,b
1,2
"; "a,c
3,4
"]
      /\ map (fun f => (name f, body f)) (files (drive w))
         = [("locness_data_20231114_23.csv", "a,c
3,4
")]).
Proof. vm_compute. repeat split. Qed.

(** * Further properties *)

Lemma empty_cache_sound folder shared d :
  cache_sound {| folder_id := folder; shared_drive_id := shared; file_cache := ∅ |} d.
Proof. intros filename fid H. cbn [file_cache] in H. rewrite lookup_empty in H. discriminate. Qed.

Lemma files_list_cases p w :
  let '(r, w') := files_list p w in
  files (drive w') = files (drive w)
  /\ next_id (drive w') = next_id (drive w)
  /\ clock w' = clock w /\ clock_reads w' = clock_reads w
  /\ DataFrame_to_csv w' = DataFrame_to_csv w
  /\ trace w' = trace w ++ [FilesList p]
  /\ ((exists e, r = Refused e)
      \/ r = Ok (List.filter (matches (q p)) (files (drive w)))).
Proof.
  unfold files_list, take_fault. cbn [drive emit].
  destruct (faults (drive w)) as [|[|] fs]; cbn;
    repeat split; eauto.
Qed.

Lemma files_update_cases p w :
  let '(r, w') := files_update p w in
  next_id (drive w') = next_id (drive w)
  /\ clock w' = clock w /\ clock_reads w' = clock_reads w
  /\ DataFrame_to_csv w' = DataFrame_to_csv w
  /\ trace w' = trace w ++ [FilesUpdate p]
  /\ (((exists e, r = Refused e) /\ files (drive w') = files (drive w))
      \/ (r = Ok (fileId p)
          /\ existsb (fun f => Nat.eqb (id f) (fileId p)) (files (drive w)) = true
          /\ files (drive w')
             = map (replace_body (fileId p) (media_bytes (update_media_body p)))
                 (files (drive w)))).
Proof.
  unfold files_update, take_fault. cbn [drive emit].
  destruct (faults (drive w)) as [|[|] fs]; cbn;
    try destruct (existsb _ _) eqn:Hex; cbn; repeat split; eauto.
Qed.

Lemma files_create_cases p w :
  let '(r, w') := files_create p w in
  clock w' = clock w /\ clock_reads w' = clock_reads w
  /\ DataFrame_to_csv w' = DataFrame_to_csv w
  /\ trace w' = trace w ++ [FilesCreate p]
  /\ (((exists e, r = Refused e) /\ files (drive w') = files (drive w)
       /\ next_id (drive w') = next_id (drive w))
      \/ (r = Ok (next_id (drive w))
          /\ next_id (drive w') = S (next_id (drive w))
          /\ files (drive w')
             = files (drive w)
               ++ [{| id := next_id (drive w);
                      name := meta_name (create_body p);
                      parents := default [] (meta_parents (create_body p));
                      trashed := false;
                      body := media_bytes (create_media_body p) |}])).
Proof.
  unfold files_create, take_fault. cbn [drive emit].
  destruct (faults (drive w)) as [|[|] fs]; cbn; repeat split; eauto.
Qed.

Lemma upload_effects self c filename w :
  let '(r, self', w') := upload_or_update_csv self c filename w in
  upload_effect self c filename (drive w) r self' (files (drive w'))
  /\ folder_id self' = folder_id self
  /\ shared_drive_id self' = shared_drive_id self
  /\ (next_id (drive w) <= next_id (drive w'))%nat
  /\ clock w' = clock w /\ clock_reads w' = clock_reads w
  /\ DataFrame_to_csv w' = DataFrame_to_csv w.
Proof.
  unfold upload_or_update_csv, _find_existing_file.
  destruct (file_cache self !! filename) as [fid|] eqn:Hcache.
  - pose proof (files_update_cases (update_request self fid c) w) as Hupd.
    destruct (files_update _ w) as [r w'].
    destruct Hupd as (Hn & Hc & Hr & Hp & _ & [[[e ->] Hf] | (-> & Hex & Hf)]);
      cbn [drive log_info log_error emit]; rewrite Hf, Hn.
    + repeat split; auto; try (simpl; congruence). apply effect_none. left. reflexivity.
    + repeat split; auto; try (simpl; congruence).
      apply (effect_update self c filename (drive w) fid self Hex). left. auto.
  - pose proof (files_list_cases (search_params self filename) w) as Hlist.
    destruct (files_list _ w) as [r1 w1].
    destruct Hlist as (Hf1 & Hn1 & Hc1 & Hr1 & Hp1 & _ & Hres).
    fold (objects_named self filename (drive w)) in Hres.
    assert (Hcreate :
      forall wx, files (drive wx) = files (drive w) ->
                 next_id (drive wx) = next_id (drive w) ->
                 clock wx = clock w -> clock_reads wx = clock_reads w ->
                 DataFrame_to_csv wx = DataFrame_to_csv w ->
        let '(r, self', w') :=
          match files_create (create_request self filename c) wx with
          | (Ok fid', w) =>
              (Some fid', cache_file filename fid' self,
               log_info (Successfully_uploaded_new filename fid') w)
          | (Refused e, w) =>
              (None, self, log_error (Error_uploading_updating filename e) w)
          end in
        upload_effect self c filename (drive w) r self' (files (drive w'))
        /\ folder_id self' = folder_id self
        /\ shared_drive_id self' = shared_drive_id self
        /\ (next_id (drive w) <= next_id (drive w'))%nat
        /\ clock w' = clock w /\ clock_reads w' = clock_reads w
        /\ DataFrame_to_csv w' = DataFrame_to_csv w).
    { intros wx Hfx Hnx Hcx Hrx Hpx.
      pose proof (files_create_cases (create_request self filename c) wx) as Hcr.
      destruct (files_create _ wx) as [r w'].
      destruct Hcr as (Hc & Hr & Hp & _ & [([e ->] & Hf & Hn) | (-> & Hn & Hf)]);
        cbn [drive log_info log_error emit]; rewrite Hf, Hn, Hfx, Hnx.
      - repeat split; auto; try (simpl; congruence). apply effect_none. left. reflexivity.
      - repeat split; auto; try (simpl; congruence); try lia.
        apply (effect_create self c filename (drive w) Hcache). }
    destruct Hres as [[e ->] | ->].
    + apply Hcreate; cbn [drive log_error emit]; assumption.
    + destruct (objects_named self filename (drive w)) as [|f rest] eqn:Hobj.
      * apply Hcreate; assumption.
      * assert (Hin : In f (objects_named self filename (drive w)))
          by (rewrite Hobj; left; reflexivity).
        pose proof (files_update_cases
                      (update_request (cache_file filename (id f) self) (id f) c) w1)
          as Hupd.
        destruct (files_update _ w1) as [r w'].
        destruct Hupd as (Hn & Hc & Hr & Hp & _ & [[[e ->] Hf] | (-> & Hex & Hf)]);
          cbn [drive log_info log_error emit]; rewrite Hf, Hn, ?Hf1, Hn1.
        -- repeat split; auto; try (simpl; congruence).
           apply effect_none. right. exists f. auto.
        -- repeat split; auto; try (simpl; congruence).
           cbn [fileId update_request media_bytes update_media_body csv_media] in *.
           rewrite Hf1 in Hex.
           apply (effect_update self c filename (drive w) (id f) _ Hex).
           right. exists f. auto.
Qed.

Lemma objects_named_folder s1 s2 filename d :
  folder_id s1 = folder_id s2 ->
  objects_named s1 filename d = objects_named s2 filename d.
Proof. intros H. unfold objects_named. rewrite !q_search_params, H. reflexivity. Qed.

Lemma In_filter_replace_body qr fid c f l :
  In f (List.filter (matches qr) l) ->
  In (replace_body fid c f) (List.filter (matches qr) (map (replace_body fid c) l)).
Proof. intros H. rewrite filter_map_replace_body. apply in_map, H. Qed.

Lemma replace_body_id fid c f : id (replace_body fid c f) = id f.
Proof. unfold replace_body. destruct (Nat.eqb (id f) fid); reflexivity. Qed.

Lemma replace_body_target c f : body (replace_body (id f) c f) = c.
Proof. unfold replace_body. rewrite Nat.eqb_refl. reflexivity. Qed.

Lemma replace_body_meta fid c f : file_meta (replace_body fid c f) = file_meta f.
Proof. unfold replace_body. destruct (Nat.eqb (id f) fid); reflexivity. Qed.

Lemma upload_effect_success self c filename d fid self' files' :
  upload_effect self c filename d (Some fid) self' files' ->
  cache_agrees self filename d ->
  folder_id self' = folder_id self ->
  exists f,
    In f (List.filter (matches (q (search_params self' filename))) files')
    /\ id f = fid /\ body f = c
    /\ file_cache self' !! filename = Some fid.
Proof.
  intros Heff Hagree Hfolder.
  assert (Hq : q (search_params self' filename) = q (search_params self filename))
    by (rewrite !q_search_params, Hfolder; reflexivity).
  rewrite Hq.
  inversion Heff as [ | fid0 self0 Hex Hwho | Hcache]; subst.
  - assert (Hf : exists f, In f (objects_named self filename d) /\ id f = fid
                           /\ file_cache self' !! filename = Some fid).
    { destruct Hwho as [[-> Hcache] | (f & Hcache & Hin & Hid & ->)].
      - destruct (Hagree fid Hcache) as (f & Hin & Hid). exists f. auto.
      - exists f. split; [exact Hin|]. split; [exact Hid|]. apply lookup_insert_eq. }
    destruct Hf as (f & Hin & Hid & Hc).
    exists (replace_body fid c f).
    split; [apply In_filter_replace_body, Hin|].
    split; [rewrite replace_body_id; exact Hid|].
    split; [rewrite <- Hid; apply replace_body_target|exact Hc].
  - exists (created_file self filename c d).
    split.
    + rewrite List.filter_app. apply in_or_app. right.
      cbn [List.filter].
      pose proof (created_file_matches self filename c (next_id d)) as Hm.
      change (matches (q (search_params self filename)) (created_file self filename c d) = true) in Hm.
      rewrite Hm. left. reflexivity.
    + split; [reflexivity|]. split; [reflexivity|]. apply lookup_insert_eq.
Qed.

(** X7.  When the cache agrees with the Drive for the name, an upload that
    returns an identifier has stored the content: a live object of that
    name has this identifier and this content, and the cache maps the name
    to it. *)
Theorem upload_success_stores_content self c filename w fid self' w' :
  cache_agrees self filename (drive w) ->
  upload_or_update_csv self c filename w = (Some fid, self', w') ->
  exists f,
    In f (objects_named self' filename (drive w'))
    /\ id f = fid /\ body f = c
    /\ file_cache self' !! filename = Some fid.
Proof.
  intros Hagree Hup.
  pose proof (upload_effects self c filename w) as Heff. rewrite Hup in Heff.
  destruct Heff as (Heff & Hfolder & _).
  apply (upload_effect_success _ _ _ _ _ _ _ Heff Hagree Hfolder).
Qed.

Lemma upload_success_stores_content_witness :
  exists f,
    In f (objects_named
            (snd (fst (upload_or_update_csv demo_uploader "a
1
" demo_filename demo_world)))
            demo_filename
            (drive (snd (upload_or_update_csv demo_uploader "a
1
" demo_filename demo_world))))
    /\ body f = "a
1
".
Proof.
  destruct (upload_success_stores_content demo_uploader "a
1
" demo_filename demo_world 1%nat
              (snd (fst (upload_or_update_csv demo_uploader "a
1
" demo_filename demo_world)))
              (snd (upload_or_update_csv demo_uploader "a
1
" demo_filename demo_world)))
    as (f & Hin & _ & Hbody & _).
  - apply empty_cache_sound.
  - reflexivity.
  - exists f. split; [exact Hin|exact Hbody].
Defined.

Lemma upload_cache_sound self c filename w r self' w' :
  cache_sound self (drive w) ->
  upload_or_update_csv self c filename w = (r, self', w') ->
  cache_sound self' (drive w').
Proof.
  intros Hsound Hup.
  pose proof (upload_effects self c filename w) as Heff. rewrite Hup in Heff.
  destruct Heff as (Heff & Hfolder & _).
  intros other fid Hfid.
  unfold objects_named.
  assert (Hq : q (search_params self' other) = q (search_params self other))
    by (rewrite !q_search_params, Hfolder; reflexivity).
  rewrite Hq.
  assert (Hold : forall g, file_cache self !! other = Some g ->
                   exists f, In f (List.filter (matches (q (search_params self other)))
                                     (files (drive w))) /\ id f = g)
    by (intros g Hg; exact (Hsound other g Hg)).
  assert (Hcached : forall f,
            In f (objects_named self filename (drive w)) ->
            file_cache (cache_file filename (id f) self) !! other = Some fid ->
            exists f0, In f0 (List.filter (matches (q (search_params self other)))
                                (files (drive w))) /\ id f0 = fid).
  { intros f Hin. cbn [file_cache cache_file].
    destruct (decide (filename = other)) as [<-|Hne].
    - rewrite lookup_insert_eq. intros [= <-]. exists f. split; [exact Hin|reflexivity].
    - rewrite lookup_insert_ne by exact Hne. apply Hold. }
  inversion Heff as [self0 Hwho | fid0 self0 Hex Hwho | Hcache]; subst.
  - destruct Hwho as [-> | (f & _ & Hin & ->)].
    + apply Hold, Hfid.
    + apply (Hcached f Hin Hfid).
  - assert (Hf : exists f0, In f0 (List.filter (matches (q (search_params self other)))
                                     (files (drive w))) /\ id f0 = fid).
    { destruct Hwho as [[-> _] | (f & _ & Hin & <- & ->)].
      - apply Hold, Hfid.
      - apply (Hcached f Hin Hfid). }
    destruct Hf as (f0 & Hin0 & Hid0).
    exists (replace_body fid0 c f0).
    split; [apply In_filter_replace_body, Hin0|rewrite replace_body_id; exact Hid0].
  - revert Hfid. cbn [file_cache cache_file].
    destruct (decide (filename = other)) as [<-|Hne].
    + rewrite lookup_insert_eq. intros [= <-].
      exists (created_file self filename c (drive w)). split; [|reflexivity].
      rewrite List.filter_app. apply in_or_app. right. cbn [List.filter].
      pose proof (created_file_matches self filename c (next_id (drive w))) as Hm.
      change (matches (q (search_params self filename))
                (created_file self filename c (drive w)) = true) in Hm.
      rewrite Hm. left. reflexivity.
    + rewrite lookup_insert_ne by exact Hne. intros Hg.
      destruct (Hold fid Hg) as (f0 & Hin0 & Hid0).
      exists f0. split; [|exact Hid0].
      rewrite List.filter_app. apply in_or_app. left. exact Hin0.
Qed.

(** X8.  An upload keeps the cache sound: if every cached identifier was that of
    a live object of its name before, so it is afterwards, whatever the
    Drive refused. *)
Theorem upload_keeps_cache_sound self c filename w r self' w' :
  cache_sound self (drive w) ->
  upload_or_update_csv self c filename w = (r, self', w') ->
  cache_sound self' (drive w').
Proof. exact (upload_cache_sound self c filename w r self' w'). Qed.

Lemma upload_keeps_cache_sound_witness :
  cache_sound
    (snd (fst (upload_or_update_csv demo_uploader "a
1
" demo_filename demo_world)))
    (drive (snd (upload_or_update_csv demo_uploader "a
1
" demo_filename demo_world))).
Proof.
  apply (upload_keeps_cache_sound demo_uploader "a
1
" demo_filename demo_world
           (fst (fst (upload_or_update_csv demo_uploader "a
1
" demo_filename demo_world)))).
  - apply empty_cache_sound.
  - reflexivity.
Defined.

Lemma Forall2_kept_same c r l : Forall2 (kept_as c r) l l.
Proof. induction l; constructor; auto. split; auto. Qed.

Lemma Forall2_kept_replace c fid l :
  Forall2 (kept_as c (Some fid)) l (map (replace_body fid c) l).
Proof.
  induction l as [|f l IH]; simpl; constructor; [|exact IH].
  split; [apply replace_body_meta|].
  unfold replace_body. destruct (Nat.eqb_spec (id f) fid) as [->|_]; simpl; auto.
Qed.

(** X6.  An upload neither removes nor renames: every file of the Drive is still
    there, in place, with its identifier, name, parents and trashed flag;
    its content is as before unless it is the file the upload returns; at
    most one file is added, of the given name and content. *)
Theorem upload_keeps_other_files self c filename w :
  let '(r, self', w') := upload_or_update_csv self c filename w in
  exists kept added,
    files (drive w') = kept ++ added
    /\ Forall2 (kept_as c r) (files (drive w)) kept
    /\ (added = []
        \/ exists f, added = [f] /\ name f = filename /\ body f = c
                     /\ trashed f = false /\ r = Some (id f)).
Proof.
  pose proof (upload_effects self c filename w) as Heff.
  destruct (upload_or_update_csv self c filename w) as [[r self'] w'].
  destruct Heff as (Heff & _).
  inversion Heff as [self0 Hwho | fid0 self0 Hex Hwho | Hcache]; subst.
  - exists (files (drive w)), []. rewrite app_nil_r.
    split; [reflexivity|]. split; [apply Forall2_kept_same|left; reflexivity].
  - exists (map (replace_body fid0 c) (files (drive w))), []. rewrite app_nil_r.
    split; [reflexivity|]. split; [apply Forall2_kept_replace|left; reflexivity].
  - exists (files (drive w)), [created_file self filename c (drive w)].
    split; [reflexivity|]. split; [apply Forall2_kept_same|].
    right. eexists. repeat split; reflexivity.
Qed.

Lemma find_existing_file_cases self filename w :
  let '(r, self', w') := _find_existing_file self filename w in
  files (drive w') = files (drive w)
  /\ (forall fid, r = Some fid -> file_cache self' !! filename = Some fid)
  /\ (forall fid, r = Some fid -> file_cache self !! filename = None ->
        exists f, In f (objects_named self filename (drive w)) /\ id f = fid)
  /\ (r = None -> self' = self)
  /\ (forall other, other <> filename ->
        file_cache self' !! other = file_cache self !! other)
  /\ exists evs,
       trace w' = trace w ++ evs
       /\ contents_sent evs = []
       /\ (length (List.filter is_lookup evs) <= 1)%nat
       /\ Forall (names_only filename) evs
       /\ (is_Some (file_cache self !! filename) -> evs = []).
Proof.
  unfold _find_existing_file.
  destruct (file_cache self !! filename) as [fid|] eqn:Hcache.
  - split; [reflexivity|]. split; [intros ? [= <-]; exact Hcache|].
    split; [intros ? _ [=]|]. split; [intros [=]|]. split; [reflexivity|].
    exists []. rewrite app_nil_r. repeat split; auto.
  - pose proof (files_list_cases (search_params self filename) w) as Hlist.
    destruct (files_list _ w) as [r1 w1].
    destruct Hlist as (Hf1 & _ & _ & _ & _ & Ht1 & Hres).
    fold (objects_named self filename (drive w)) in Hres.
    assert (Hname : names_only filename (FilesList (search_params self filename))).
    { unfold names_only. cbn [request_filename]. rewrite q_search_params. reflexivity. }
    destruct Hres as [[e ->] | ->].
    + split; [exact Hf1|]. split; [intros ? [=]|]. split; [intros ? [=]|].
      split; [reflexivity|]. split; [reflexivity|].
      eexists. split; [cbn [trace log_error emit]; rewrite Ht1, <- app_assoc; reflexivity|].
      split; [reflexivity|]. split; [simpl; lia|].
      split; [repeat constructor; exact Hname|intros [? [=]]].
    + destruct (objects_named self filename (drive w)) as [|f rest] eqn:Hobj.
      * split; [exact Hf1|]. split; [intros ? [=]|]. split; [intros ? [=]|].
        split; [reflexivity|]. split; [reflexivity|].
        eexists. split; [exact Ht1|].
        split; [reflexivity|]. split; [simpl; lia|].
        split; [repeat constructor; exact Hname|intros [? [=]]].
      * split; [exact Hf1|].
        split; [intros ? [= <-]; apply lookup_insert_eq|].
        split; [intros ? [= <-] _; exists f; split; [left; reflexivity|reflexivity]|].
        split; [intros [=]|].
        split; [intros other Hne; cbn [file_cache cache_file];
                apply lookup_insert_ne; congruence|].
        eexists. split; [exact Ht1|].
        split; [reflexivity|]. split; [simpl; lia|].
        split; [repeat constructor; exact Hname|intros [? [=]]].
Qed.

(** X4.  The lookup only reads: it leaves the Drive's files as they are,
    sends no content, sends at most one list request, for the given name,
    and none on a cache hit; an identifier it returns is cached under the
    name and, when it was not cached before, is that of a live object of
    that name; on [None] the uploader is unchanged; the cache entries of
    other names are never touched. *)
Theorem find_existing_file_only_reads self filename w :
  let '(r, self', w') := _find_existing_file self filename w in
  files (drive w') = files (drive w)
  /\ (forall fid, r = Some fid -> file_cache self' !! filename = Some fid)
  /\ (forall fid, r = Some fid -> file_cache self !! filename = None ->
        exists f, In f (objects_named self filename (drive w)) /\ id f = fid)
  /\ (r = None -> self' = self)
  /\ (forall other, other <> filename ->
        file_cache self' !! other = file_cache self !! other)
  /\ exists evs,
       trace w' = trace w ++ evs
       /\ contents_sent evs = []
       /\ (length (List.filter is_lookup evs) <= 1)%nat
       /\ Forall (names_only filename) evs
       /\ (is_Some (file_cache self !! filename) -> evs = []).
Proof. exact (find_existing_file_cases self filename w). Qed.

(** X1.  When a scan raises an exception that is not boto's, at the first page or
    later, [get_new_data] does not catch it: the exception leaves the fetch
    and [read_and_write_data], nothing is logged for it, and the watermark
    stays the one the cycle started from. *)
Theorem get_new_data_other_exception fuel self w fetched e w' :
  fetch_fails self w fetched e w' ->
  is_boto_error e = false ->
  (length fetched <= fuel)%nat ->
  get_new_data fuel self w
    = (Raise e, {| last_read_timestamp := Some (watermark self w) |}, w')
  /\ (forall app w_pre,
        db_reader app = self ->
        w = log_info Reading_new_data w_pre ->
        read_and_write_data fuel app w_pre
          = (Raise e,
             set_db_reader {| last_read_timestamp := Some (watermark self w) |} app,
             w')).
Proof.
  intros Hfail Hboto Hfuel.
  assert (Hget : get_new_data fuel self w
                 = (Raise e, {| last_read_timestamp := Some (watermark self w) |}, w')).
  { unfold get_new_data.
    rewrite (fetch_fails_try _ _ _ _ _ _ Hfail Hfuel), Hboto. reflexivity. }
  split; [exact Hget|].
  intros app w_pre Hreader ->. unfold read_and_write_data.
  rewrite Hreader, Hget. reflexivity.
Qed.

Lemma get_new_data_other_exception_witness :
  exists self' w',
    get_new_data 0 new_reader (world_of crashing_table pandas empty_drive)
    = (Raise (OtherException "TypeError"), self', w').
Proof.
  destruct (get_new_data_other_exception 0 new_reader
              (world_of crashing_table pandas empty_drive) []
              (OtherException "TypeError")
              (snd (table_scan (scan_params 1699996400 1700000060 None)
                      (snd (fetch_window new_reader
                              (world_of crashing_table pandas empty_drive))))))
    as [Hget _].
  - eapply fails_at_first_scan; reflexivity.
  - reflexivity.
  - simpl. lia.
  - eexists _, _. exact Hget.
Defined.

Lemma run_pending_app fuel l1 : forall l2 app w,
  run_pending fuel (l1 ++ l2) app w
  = match run_pending fuel l1 app w with
    | (Return _, app1, w1) => run_pending fuel l2 app1 w1
    | res => res
    end.
Proof.
  induction l1 as [|j l1 IH]; intros l2 app w; simpl; [reflexivity|].
  destruct (run_job fuel j app w) as [[[u|e|] app1] w1]; auto.
Qed.

Lemma read_and_write_data_is_running fuel app w :
  is_running (snd (fst (read_and_write_data fuel app w))) = is_running app.
Proof.
  unfold read_and_write_data.
  destruct (get_new_data _ _ _) as [[[items|e|] rd] w1]; try reflexivity.
  destruct items as [|r items]; [reflexivity|].
  destruct (add_data _ _ _) as [cw w2].
  destruct (get_current_csv_content _ _) as [[content cw'] w3].
  destruct (nonempty_content content); [|reflexivity].
  destruct (get_current_filename _ _) as [filename w4].
  destruct (upload_or_update_csv _ _ _ _) as [[r0 up] w5]. reflexivity.
Qed.

Lemma upload_hourly_csv_is_running app w :
  is_running (fst (upload_hourly_csv app w)) = is_running app.
Proof.
  unfold upload_hourly_csv.
  destruct (get_current_csv_content _ _) as [[content cw'] w3].
  destruct (nonempty_content content); [|reflexivity].
  destruct (get_current_filename _ _) as [filename w4].
  destruct (upload_or_update_csv _ _ _ _) as [[r0 up] w5]. reflexivity.
Qed.

Lemma run_job_is_running fuel j app w :
  is_running (snd (fst (run_job fuel j app w))) = is_running app.
Proof.
  destruct j; simpl.
  - apply read_and_write_data_is_running.
  - pose proof (upload_hourly_csv_is_running app w) as H.
    destruct (upload_hourly_csv app w). exact H.
Qed.

Lemma run_pending_is_running fuel due : forall app w,
  is_running (snd (fst (run_pending fuel due app w))) = is_running app.
Proof.
  induction due as [|j due IH]; intros app w; simpl; [reflexivity|].
  pose proof (run_job_is_running fuel j app w) as Hj.
  destruct (run_job fuel j app w) as [[[u|e|] app1] w1]; simpl in *; auto.
  rewrite IH. exact Hj.
Qed.

(** X2.  When a job raises, [start] raises with it: the jobs that were due after
    it are not run, [stop] is not called, so nothing is flushed, and
    [is_running] stays true. *)
Theorem start_job_exception_escapes fuel before j after app0 w0 app1 w1 e app2 w2 :
  run_pending fuel before (set_is_running true app0) (log_info Starting w0)
    = (Return tt, app1, w1) ->
  run_job fuel j app1 w1 = (Raise e, app2, w2) ->
  start fuel (before ++ j :: after) app0 w0 = (Raise e, app2, w2)
  /\ is_running app2 = true.
Proof.
  intros Hbefore Hjob. split.
  - unfold start. rewrite run_pending_app, Hbefore. simpl. rewrite Hjob. reflexivity.
  - pose proof (run_job_is_running fuel j app1 w1) as H2. rewrite Hjob in H2.
    pose proof (run_pending_is_running fuel before (set_is_running true app0)
                  (log_info Starting w0)) as H1. rewrite Hbefore in H1.
    simpl in *. congruence.
Qed.

Lemma start_job_exception_escapes_witness :
  exists app2 w2,
    start 0 [Read_and_write_data; Upload_hourly_csv] two_rows_app
      (world_of crashing_table pandas empty_drive)
    = (Raise (OtherException "TypeError"), app2, w2)
    /\ is_running app2 = true.
Proof.
  exists (snd (fst (run_job 0 Read_and_write_data (set_is_running true two_rows_app)
                      (log_info Starting (world_of crashing_table pandas empty_drive))))),
         (snd (run_job 0 Read_and_write_data (set_is_running true two_rows_app)
                 (log_info Starting (world_of crashing_table pandas empty_drive)))).
  apply (start_job_exception_escapes 0 [] Read_and_write_data [Upload_hourly_csv]
           two_rows_app (world_of crashing_table pandas empty_drive)
           (set_is_running true two_rows_app)
           (log_info Starting (world_of crashing_table pandas empty_drive))).
  - reflexivity.
  - reflexivity.
Defined.

(** X3.  The windows of successful fetches adjoin: the next fetch starts where
    the last successful one ended, so no timestamp lies in both windows,
    and, when the clock has not run backwards, the two windows together
    are the window from the first lower bound to the second upper bound. *)
Theorem successful_fetch_windows_adjoin fuel self w items self1 w1 :
  get_new_data_try fuel self w = (Return items, self1, w1) ->
  forall wn,
    watermark self1 wn = capture_time self w
    /\ (forall t,
          ((watermark self w <? t) && (t <=? capture_time self w))
          && ((watermark self1 wn <? t) && (t <=? capture_time self1 wn)) = false)
    /\ (watermark self w <= capture_time self w ->
        capture_time self w <= capture_time self1 wn ->
        forall t,
          ((watermark self w <? t) && (t <=? capture_time self w))
          || ((watermark self1 wn <? t) && (t <=? capture_time self1 wn))
          = (watermark self w <? t) && (t <=? capture_time self1 wn)).
Proof.
  intros Htry wn.
  destruct (fetch_window_eq self w) as (w0 & Hwin & _).
  rewrite (get_new_data_try_window _ _ _ _ _ _ Hwin) in Htry.
  assert (Hself : self1 = {| last_read_timestamp := Some (capture_time self w) |}).
  { destruct (table_scan _ w0) as [[response|e] wa]; [|discriminate].
    destruct (paginate _ _ _ _ _ _) as [[its|e|] wb]; [|discriminate|discriminate].
    injection Htry as _ <- _. reflexivity. }
  assert (Hlo : watermark self1 wn = capture_time self w) by (rewrite Hself; reflexivity).
  split; [exact Hlo|]. rewrite Hlo. split.
  - intros t.
    destruct (Z.ltb_spec (watermark self w) t), (Z.leb_spec t (capture_time self w)),
      (Z.ltb_spec (capture_time self w) t), (Z.leb_spec t (capture_time self1 wn));
      simpl; try reflexivity; lia.
  - intros H1 H2 t.
    destruct (Z.ltb_spec (watermark self w) t), (Z.leb_spec t (capture_time self w)),
      (Z.ltb_spec (capture_time self w) t), (Z.leb_spec t (capture_time self1 wn));
      simpl; try reflexivity; lia.
Qed.

Lemma successful_fetch_windows_adjoin_witness :
  watermark (snd (fst (get_new_data_try 2 new_reader demo_world))) demo_world
  = capture_time new_reader demo_world.
Proof.
  destruct (get_new_data_try 2 new_reader demo_world) as [[o self1] w1] eqn:Htry.
  assert (Ho : o = Return [rowA; rowB]).
  { apply (f_equal (fun x => fst (fst x))) in Htry. simpl in Htry.
    rewrite <- Htry. vm_compute. reflexivity. }
  subst o.
  apply (successful_fetch_windows_adjoin 2 new_reader demo_world _ self1 w1 Htry demo_world).
Defined.

Lemma append_cancel_l (p x y : string) : (p ++ x)%string = (p ++ y)%string -> x = y.
Proof. induction p as [|a p IH]; cbn [String.append]; [auto|]. intros [= H]. auto. Qed.

Lemma append_length (x y : string) :
  String.length (x ++ y)%string = (String.length x + String.length y)%nat.
Proof.
  induction x as [|a x IH]; [reflexivity|].
  change (S (String.length (x ++ y)%string) = S (String.length x + String.length y)).
  f_equal. exact IH.
Qed.

Lemma append_cancel_r (s : string) : forall x y : string,
  (x ++ s)%string = (y ++ s)%string -> x = y.
Proof.
  induction x as [|a x IH]; intros [|b y] H.
  - reflexivity.
  - apply (f_equal String.length) in H. rewrite !append_length in H.
    cbn [String.length] in H. lia.
  - apply (f_equal String.length) in H. rewrite !append_length in H.
    cbn [String.length] in H. lia.
  - cbn [String.append] in H. injection H as -> H. f_equal. apply IH, H.
Qed.

Lemma truthy_Some (o : option string) :
  truthy o = true -> exists s, o = Some s /\ s <> "".
Proof.
  destruct o as [s|]; simpl; [|discriminate].
  destruct (String.eqb_spec s ""); [discriminate|]. eauto.
Qed.

Lemma truthy_of_nonempty (s : string) : s <> "" -> truthy (Some s) = true.
Proof. simpl. destruct (String.eqb_spec s ""); [congruence|reflexivity]. Qed.

(** X10.  Once rows were added in an hour, the file name is that hour's, whatever
    the clock says later, and [get_current_filename] does not read the
    clock. *)
Theorem filename_follows_bucket self data w self' w' :
  data <> [] ->
  hour_now w <> "" ->
  add_data self data w = (self', w') ->
  forall later,
    get_current_filename self' later
    = ((name_prefix self ++ "_" ++ hour_now w ++ ".csv")%string, later).
Proof.
  intros Hdata Hhour Hadd later.
  destruct (add_data_nonempty self data w Hdata)
    as (s & w2 & Hadd' & Hlabel & Hprefix & _).
  rewrite Hadd in Hadd'. injection Hadd' as <- <-.
  unfold get_current_filename. rewrite Hlabel, Hprefix.
  rewrite truthy_of_nonempty by exact Hhour. reflexivity.
Qed.

Lemma filename_follows_bucket_witness :
  get_current_filename (fst (add_data previous_hour_writer [rowB] demo_world)) demo_world
  = ("locness_data_20231114_22.csv", demo_world).
Proof.
  apply (filename_follows_bucket previous_hour_writer [rowB] demo_world _
           (snd (add_data previous_hour_writer [rowB] demo_world))).
  - discriminate.
  - discriminate.
  - reflexivity.
Defined.

(** X11.  For one prefix, the files of two buckets have the same name only if the
    buckets have the same hour label. *)
Theorem filenames_of_hours_differ s1 s2 w1 w2 :
  name_prefix s1 = name_prefix s2 ->
  truthy (current_hour s1) = true ->
  truthy (current_hour s2) = true ->
  fst (get_current_filename s1 w1) = fst (get_current_filename s2 w2) ->
  current_hour s1 = current_hour s2.
Proof.
  intros Hprefix H1 H2. unfold get_current_filename. rewrite H1, H2. simpl.
  destruct (truthy_Some _ H1) as (h1 & -> & _).
  destruct (truthy_Some _ H2) as (h2 & -> & _).
  simpl. rewrite Hprefix. intros H.
  apply append_cancel_l in H. apply (append_cancel_l "_") in H.
  apply append_cancel_r in H. congruence.
Qed.

Lemma filenames_of_hours_differ_witness :
  current_hour two_rows_writer
  = current_hour (fst (add_data previous_hour_writer [rowB] demo_world)).
Proof.
  apply (filenames_of_hours_differ two_rows_writer
           (fst (add_data previous_hour_writer [rowB] demo_world))
           demo_world demo_world); reflexivity.
Defined.

Lemma contents_sent_app evs tail :
  contents_sent (evs ++ tail) = contents_sent evs ++ contents_sent tail.
Proof.
  induction evs as [|ev evs IH]; [reflexivity|].
  destruct ev; simpl; rewrite ?IH; reflexivity.
Qed.

Lemma upload_requests self c filename w :
  let '(r, self', w') := upload_or_update_csv self c filename w in
  exists evs,
    trace w' = trace w ++ evs
    /\ contents_sent evs = [c]
    /\ (length (List.filter is_lookup evs) <= 1)%nat
    /\ Forall (names_only filename) evs.
Proof.
  unfold upload_or_update_csv.
  pose proof (find_existing_file_cases self filename w) as Hfind.
  destruct (_find_existing_file self filename w) as [[existing self1] w1].
  destruct Hfind as (_ & _ & _ & _ & _ & evs & Ht & Hsent & Hlook & Hnames & _).
  assert (Hdone : forall req ev w2,
             contents_sent [req] = [c] ->
             is_lookup req = false -> is_lookup ev = false ->
             contents_sent [ev] = [] ->
             names_only filename req -> names_only filename ev ->
             trace w2 = trace w1 ++ [req; ev] ->
             exists evs',
               trace w2 = trace w ++ evs'
               /\ contents_sent evs' = [c]
               /\ (length (List.filter is_lookup evs') <= 1)%nat
               /\ Forall (names_only filename) evs').
  { intros req ev w2 Hc Hl1 Hl2 Hc2 Hn1 Hn2 Ht2.
    exists (evs ++ [req; ev]).
    split; [rewrite Ht2, Ht, <- app_assoc; reflexivity|].
    split.
    - rewrite contents_sent_app, Hsent.
      change (contents_sent [req; ev]) with (contents_sent ([req] ++ [ev])).
      rewrite contents_sent_app, Hc, Hc2. reflexivity.
    - split.
      + rewrite List.filter_app, length_app. simpl. rewrite Hl1, Hl2. simpl. lia.
      + apply Forall_app. split; [exact Hnames|]. repeat constructor; assumption. }
  destruct existing as [fid|].
  - pose proof (files_update_cases (update_request self1 fid c) w1) as Hupd.
    destruct (files_update _ w1) as [r w2].
    destruct Hupd as (_ & _ & _ & _ & Ht2 & [[[e ->] _] | (-> & _ & _)]).
    + apply (Hdone (FilesUpdate (update_request self1 fid c))
               (Log ERROR (Error_uploading_updating filename e))); try reflexivity.
      cbn [trace log_error emit]. rewrite Ht2, <- app_assoc. reflexivity.
    + apply (Hdone (FilesUpdate (update_request self1 fid c))
               (Log INFO (Successfully_updated filename fid))); try reflexivity.
      cbn [trace log_info emit]. rewrite Ht2, <- app_assoc. reflexivity.
  - pose proof (files_create_cases (create_request self1 filename c) w1) as Hcr.
    destruct (files_create _ w1) as [r w2].
    destruct Hcr as (_ & _ & _ & Ht2 & [([e ->] & _) | (-> & _ & _)]).
    + apply (Hdone (FilesCreate (create_request self1 filename c))
               (Log ERROR (Error_uploading_updating filename e))); try reflexivity.
      cbn [trace log_error emit]. rewrite Ht2, <- app_assoc. reflexivity.
    + apply (Hdone (FilesCreate (create_request self1 filename c))
               (Log INFO (Successfully_uploaded_new filename (next_id (drive w1)))));
        try reflexivity.
      cbn [trace log_info emit]. rewrite Ht2, <- app_assoc. reflexivity.
Qed.

(** X5.  Whatever the Drive answers, an upload sends the content exactly once, in
    an update or a create, after at most one list request, and every list
    or create request it sends carries the given file name. *)
Theorem upload_sends_one_content self c filename w :
  let '(r, self', w') := upload_or_update_csv self c filename w in
  exists evs,
    trace w' = trace w ++ evs
    /\ contents_sent evs = [c]
    /\ (length (List.filter is_lookup evs) <= 1)%nat
    /\ Forall (names_only filename) evs.
Proof. exact (upload_requests self c filename w). Qed.

Lemma get_current_csv_content_any self w :
  let '(content, self', w') := get_current_csv_content self w in
  self' = self
  /\ drive w' = drive w /\ clock w' = clock w /\ clock_reads w' = clock_reads w
  /\ DataFrame_to_csv w' = DataFrame_to_csv w
  /\ (current_hour_data self = [] -> content = None /\ w' = w)
  /\ exists evs, trace w' = trace w ++ evs
                 /\ contents_sent evs = []
                 /\ Forall (fun e => request_filename e = None) evs.
Proof.
  unfold get_current_csv_content, _write_hour_data.
  destruct (current_hour_data self) as [|r rows].
  - repeat split; auto. exists []. rewrite app_nil_r. auto.
  - destruct (DataFrame_to_csv w (r :: rows)) as [content|e]; cbn;
      repeat split; auto; try discriminate;
      eexists; (split; [reflexivity|split; [reflexivity|repeat constructor]]).
Qed.

(** X12.  The hour job changes neither the reader, the bucket nor [is_running];
    on an empty bucket it sends nothing and logs that there is no data;
    with a labelled bucket it sends at most one content, under the name of
    the bucket's hour. *)
Theorem upload_hourly_csv_effects app w :
  let '(app', w') := upload_hourly_csv app w in
  db_reader app' = db_reader app
  /\ csv_writer app' = csv_writer app
  /\ is_running app' = is_running app
  /\ (current_hour_data (csv_writer app) = [] ->
      drive w' = drive w
      /\ drive_uploader app' = drive_uploader app
      /\ trace w' = trace w
           ++ [Log INFO Hour_boundary_reached; Log INFO No_data_for_current_hour])
  /\ (truthy (current_hour (csv_writer app)) = true ->
      exists evs,
        trace w' = trace w ++ evs
        /\ (length (contents_sent evs) <= 1)%nat
        /\ Forall (names_only
                     (name_prefix (csv_writer app) ++ "_"
                      ++ default "" (current_hour (csv_writer app)) ++ ".csv")%string)
             evs).
Proof.
  unfold upload_hourly_csv.
  pose proof (get_current_csv_content_any (csv_writer app)
                (log_info Hour_boundary_reached w)) as Hget.
  destruct (get_current_csv_content _ _) as [[content cw] w3].
  destruct Hget as (Hcw & Hd3 & _ & _ & _ & Hempty & evs3 & Ht3 & Hs3 & Hn3).
  subst cw.
  assert (Hnames3 : forall n, Forall (names_only n) evs3).
  { intros n. eapply Forall_impl; [exact Hn3|].
    intros ev Hev. unfold names_only. rewrite Hev. exact I. }
  assert (Ht3' : trace w3 = trace w ++ Log INFO Hour_boundary_reached :: evs3).
  { rewrite Ht3. cbn [trace log_info emit]. rewrite <- app_assoc. reflexivity. }
  destruct (nonempty_content content) as [text|] eqn:Hcontent.
  - cbn [csv_writer set_csv_writer drive_uploader].
    assert (Hrows : current_hour_data (csv_writer app) <> []).
    { intros H. destruct (Hempty H) as [-> _]. discriminate. }
    unfold get_current_filename.
    destruct (truthy (current_hour (csv_writer app))) eqn:Hhour.
    + pose proof (upload_requests (drive_uploader app) text
                    (name_prefix (csv_writer app) ++ "_"
                     ++ default "" (current_hour (csv_writer app)) ++ ".csv")%string w3)
        as Hup.
      destruct (upload_or_update_csv _ _ _ _) as [[r0 up] w5].
      destruct Hup as (evs & Ht5 & Hs5 & _ & Hn5).
      split; [reflexivity|]. split; [reflexivity|]. split; [reflexivity|].
      split; [intros H; contradiction|].
      intros _. exists (Log INFO Hour_boundary_reached :: evs3 ++ evs).
      split; [rewrite Ht5, Ht3', <- app_assoc; reflexivity|].
      split.
      * cbn [contents_sent]. rewrite contents_sent_app, Hs3, Hs5. simpl. lia.
      * constructor; [exact I|]. apply Forall_app. split; [apply Hnames3|exact Hn5].
    + destruct (now w3) as [rd w4].
      destruct (upload_or_update_csv _ _ _ _) as [[r0 up] w5].
      split; [reflexivity|]. split; [reflexivity|]. split; [reflexivity|].
      split; [intros H; contradiction|intros [=]].
  - split; [reflexivity|]. split; [reflexivity|]. split; [reflexivity|].
    split.
    + intros H. destruct (Hempty H) as [_ Hw3].
      split; [cbn [drive log_info emit]; exact Hd3|].
      split; [reflexivity|].
      cbn [trace log_info emit]. rewrite Hw3. cbn [trace log_info emit].
      rewrite <- app_assoc. reflexivity.
    + intros _. exists (Log INFO Hour_boundary_reached
                        :: evs3 ++ [Log INFO No_data_for_current_hour]).
      split; [cbn [trace log_info emit]; rewrite Ht3', <- app_assoc; reflexivity|].
      split.
      * cbn [contents_sent]. rewrite contents_sent_app, Hs3. simpl. lia.
      * constructor; [exact I|]. apply Forall_app. split; [apply Hnames3|].
        repeat constructor.
Qed.

Lemma paginate_drive lo hi fuel : forall r items w,
  drive (snd (paginate fuel lo hi r items w)) = drive w.
Proof.
  induction fuel as [|fuel IH]; intros r items w; cbn [paginate];
    destruct (LastEvaluatedKey r) as [k|]; try reflexivity.
  unfold table_scan. destruct (table w (scans w) _) as [r'|e]; [|reflexivity].
  rewrite IH. reflexivity.
Qed.

Lemma get_new_data_drive fuel self w :
  drive (snd (get_new_data fuel self w)) = drive w.
Proof.
  destruct (fetch_window_eq self w) as (w0 & Hwin & _).
  assert (Hd0 : drive w0 = drive w).
  { revert Hwin. unfold fetch_window, init_watermark, now.
    destruct (last_read_timestamp self); intros [= _ _ <-]; reflexivity. }
  unfold get_new_data. rewrite (get_new_data_try_window _ _ _ _ _ _ Hwin).
  unfold table_scan. destruct (table w0 (scans w0) _) as [response|e].
  - pose proof (paginate_drive (watermark self w) (capture_time self w) fuel response
                  (get_Items response)
                  (emit (TableScan (scan_params (watermark self w) (capture_time self w) None))
                     {| clock := clock w0; clock_reads := clock_reads w0;
                        table := table w0; scans := S (scans w0);
                        DataFrame_to_csv := DataFrame_to_csv w0;
                        drive := drive w0; trace := trace w0 |})) as Hp.
    destruct (paginate _ _ _ _ _ _) as [[items|e|] w2]; simpl in *.
    + destruct items; simpl; congruence.
    + destruct (is_boto_error e); simpl; congruence.
    + congruence.
  - destruct (is_boto_error e); simpl; exact Hd0.
Qed.

Lemma add_data_drive self data w : drive (snd (add_data self data w)) = drive w.
Proof. unfold add_data. destruct data; reflexivity. Qed.

Lemma upload_invariant n app c filename w :
  cache_sound (drive_uploader app) (drive w) ->
  (n <= length (files (drive w)))%nat ->
  let '(r, up, w') := upload_or_update_csv (drive_uploader app) c filename w in
  cache_sound up (drive w') /\ (n <= length (files (drive w')))%nat.
Proof.
  intros Hsound Hlen.
  pose proof (upload_effects (drive_uploader app) c filename w) as Heff.
  destruct (upload_or_update_csv _ _ _ _) as [[r up] w'] eqn:Hup.
  split.
  - exact (upload_cache_sound _ _ _ _ _ _ _ Hsound Hup).
  - destruct Heff as (Heff & _).
    inversion Heff; subst; rewrite ?length_map, ?length_app; simpl; lia.
Qed.

Lemma get_current_filename_drive self w :
  drive (snd (get_current_filename self w)) = drive w.
Proof. unfold get_current_filename. destruct (truthy _); reflexivity. Qed.

(** The three lines every caller of the uploader runs after rendering. *)
Lemma sync_invariant n app (content : option string) w3 :
  drive_invariant n app w3 ->
  forall cw,
  let '(app', w') :=
    match nonempty_content content with
    | Some text =>
        let '(filename, w) := get_current_filename cw w3 in
        let '(_, up, w) := upload_or_update_csv (drive_uploader app) text filename w in
        (set_drive_uploader up app, w)
    | None => (app, w3)
    end in
  drive_invariant n app' w'.
Proof.
  intros [Hsound Hlen] cw.
  destruct (nonempty_content content) as [text|]; [|split; assumption].
  pose proof (get_current_filename_drive cw w3) as Hd.
  destruct (get_current_filename cw w3) as [filename w4]. simpl in Hd.
  pose proof (upload_invariant n app text filename w4) as Hup.
  rewrite Hd in Hup. specialize (Hup Hsound Hlen).
  destruct (upload_or_update_csv _ _ _ _) as [[r up] w5].
  exact Hup.
Qed.

Lemma read_and_write_data_invariant n fuel app w :
  drive_invariant n app w ->
  let '(o, app', w') := read_and_write_data fuel app w in
  drive_invariant n app' w'.
Proof.
  intros Hinv. unfold read_and_write_data.
  pose proof (get_new_data_drive fuel (db_reader app) (log_info Reading_new_data w)) as Hd.
  destruct (get_new_data _ _ _) as [[[items|e|] rd] w1]; simpl in Hd;
    try (unfold drive_invariant in *; cbn [drive_uploader set_db_reader]; rewrite Hd;
         exact Hinv).
  destruct items as [|r items].
  - unfold drive_invariant in *. cbn [drive_uploader set_db_reader drive log_info emit].
    rewrite Hd. exact Hinv.
  - pose proof (add_data_drive (csv_writer (set_db_reader rd app)) (r :: items) w1) as Hd2.
    destruct (add_data _ _ _) as [cw w2]. simpl in Hd2.
    pose proof (get_current_csv_content_any
                  (csv_writer (set_csv_writer cw (set_db_reader rd app))) w2) as Hget.
    destruct (get_current_csv_content _ _) as [[content cw'] w3].
    destruct Hget as (_ & Hd3 & _).
    pose proof (sync_invariant n
                  (set_csv_writer cw' (set_csv_writer cw (set_db_reader rd app)))
                  content w3) as Hsync.
    assert (Hinv3 : drive_invariant n
                      (set_csv_writer cw' (set_csv_writer cw (set_db_reader rd app))) w3).
    { unfold drive_invariant in *. cbn [drive_uploader set_csv_writer set_db_reader].
      rewrite Hd3, Hd2, Hd. exact Hinv. }
    specialize (Hsync Hinv3 (csv_writer (set_csv_writer cw'
                               (set_csv_writer cw (set_db_reader rd app))))).
    destruct (nonempty_content content) as [text|]; [|exact Hsync].
    destruct (get_current_filename _ w3) as [filename w4].
    destruct (upload_or_update_csv _ _ _ _) as [[r0 up] w5]. exact Hsync.
Qed.

Lemma upload_hourly_csv_invariant n app w :
  drive_invariant n app w ->
  let '(app', w') := upload_hourly_csv app w in
  drive_invariant n app' w'.
Proof.
  intros Hinv. unfold upload_hourly_csv.
  pose proof (get_current_csv_content_any (csv_writer app)
                (log_info Hour_boundary_reached w)) as Hget.
  destruct (get_current_csv_content _ _) as [[content cw'] w3].
  destruct Hget as (_ & Hd3 & _).
  assert (Hinv3 : drive_invariant n (set_csv_writer cw' app) w3).
  { unfold drive_invariant in *. cbn [drive_uploader set_csv_writer].
    rewrite Hd3. exact Hinv. }
  pose proof (sync_invariant n (set_csv_writer cw' app) content w3 Hinv3
                (csv_writer (set_csv_writer cw' app))) as Hsync.
  destruct (nonempty_content content) as [text|].
  - destruct (get_current_filename _ w3) as [filename w4].
    destruct (upload_or_update_csv _ _ _ _) as [[r0 up] w5]. exact Hsync.
  - unfold drive_invariant in *. exact Hsync.
Qed.

Lemma stop_invariant n app w :
  drive_invariant n app w ->
  let '(app', w') := stop app w in
  drive_invariant n app' w'.
Proof.
  intros Hinv. unfold stop.
  pose proof (get_current_csv_content_any (csv_writer (set_is_running false app))
                (log_info Stopping w)) as Hget.
  destruct (get_current_csv_content _ _) as [[content cw'] w3].
  destruct Hget as (_ & Hd3 & _).
  assert (Hinv3 : drive_invariant n (set_csv_writer cw' (set_is_running false app)) w3).
  { unfold drive_invariant in *. cbn [drive_uploader set_csv_writer set_is_running].
    rewrite Hd3. exact Hinv. }
  pose proof (sync_invariant n (set_csv_writer cw' (set_is_running false app)) content w3
                Hinv3 (csv_writer (set_csv_writer cw' (set_is_running false app)))) as Hsync.
  destruct (nonempty_content content) as [text|].
  - destruct (get_current_filename _ w3) as [filename w4].
    destruct (upload_or_update_csv _ _ _ _) as [[r0 up] w5]. exact Hsync.
  - exact Hsync.
Qed.

Lemma run_pending_invariant n fuel due : forall app w,
  drive_invariant n app w ->
  let '(o, app', w') := run_pending fuel due app w in
  drive_invariant n app' w'.
Proof.
  induction due as [|j due IH]; intros app w Hinv; simpl; [exact Hinv|].
  assert (Hjob : let '(o, app', w') := run_job fuel j app w in drive_invariant n app' w').
  { destruct j; simpl.
    - apply read_and_write_data_invariant, Hinv.
    - pose proof (upload_hourly_csv_invariant n app w Hinv) as H.
      destruct (upload_hourly_csv app w). exact H. }
  destruct (run_job fuel j app w) as [[[u|e|] app1] w1]; try exact Hjob.
  apply IH, Hjob.
Qed.

(** X9.  Over a whole run of [start], whatever jobs fall due and whatever the
    table and the Drive answer, the cache stays sound and the Drive never
    holds fewer files than before. *)
Theorem start_keeps_drive_invariant fuel due app w :
  cache_sound (drive_uploader app) (drive w) ->
  let '(o, app', w') := start fuel due app w in
  cache_sound (drive_uploader app') (drive w')
  /\ (length (files (drive w)) <= length (files (drive w')))%nat.
Proof.
  intros Hsound. unfold start.
  pose proof (run_pending_invariant (length (files (drive w))) fuel due
                (set_is_running true app) (log_info Starting w)) as Hrun.
  assert (Hinv0 : drive_invariant (length (files (drive w)))
                    (set_is_running true app) (log_info Starting w)).
  { split; [exact Hsound|reflexivity]. }
  specialize (Hrun Hinv0).
  destruct (run_pending _ _ _ _) as [[[u|e|] app1] w1]; try exact Hrun.
  pose proof (stop_invariant (length (files (drive w))) app1
                (log_info Received_shutdown_signal w1)) as Hstop.
  assert (Hinv1 : drive_invariant (length (files (drive w))) app1
                    (log_info Received_shutdown_signal w1)) by exact Hrun.
  specialize (Hstop Hinv1).
  destruct (stop app1 _) as [app2 w2]. exact Hstop.
Qed.

Lemma start_keeps_drive_invariant_witness :
  let '(o, app', w') := start 2 [Read_and_write_data; Upload_hourly_csv] demo_app demo_world in
  cache_sound (drive_uploader app') (drive w')
  /\ (length (files (drive demo_world)) <= length (files (drive w')))%nat.
Proof.
  apply (start_keeps_drive_invariant 2 [Read_and_write_data; Upload_hourly_csv]
           demo_app demo_world).
  apply empty_cache_sound.
Defined.

(** X13.  Without a table name the application is not built, and the error names
    the table setting even when the credentials are missing too; with a
    table but without a credentials file it is not built either, and the
    error is the one [boto3.resource] raised, if it raised, and otherwise
    the one that names the credentials setting; an application that is
    built has both settings, a reader without watermark, an empty cache,
    an empty bucket without label, and is not running. *)
Theorem app_needs_configuration env :
  (truthy (getenv env "DYNAMODB_TABLE_NAME") = false ->
   DataWriterApp__init__ env
   = (Refused (ValueError "DYNAMODB_TABLE_NAME environment variable is required"), []))
  /\ (truthy (getenv env "DYNAMODB_TABLE_NAME") = true ->
      truthy (getenv env "GOOGLE_CREDENTIALS_FILE") = false ->
      DataWriterApp__init__ env
      = (Refused
           match boto3_resource env with
           | Ok _ => ValueError "GOOGLE_CREDENTIALS_FILE environment variable is required"
           | Refused e => e
           end, []))
  /\ (forall app logs, DataWriterApp__init__ env = (Ok app, logs) ->
        configured env
        /\ db_reader app = {| last_read_timestamp := None |}
        /\ file_cache (drive_uploader app) = ∅
        /\ folder_id (drive_uploader app) = getenv env "GOOGLE_DRIVE_FOLDER_ID"
        /\ shared_drive_id (drive_uploader app) = getenv env "GOOGLE_SHARED_DRIVE_ID"
        /\ current_hour_data (csv_writer app) = []
        /\ current_hour (csv_writer app) = None
        /\ is_running app = false).
Proof.
  unfold DataWriterApp__init__, DynamoDBDataReader__init__, GoogleDriveUploader__init__,
    configured.
  split; [|split].
  - intros ->. reflexivity.
  - intros -> ->. destruct (boto3_resource env); reflexivity.
  - intros app logs.
    destruct (truthy (getenv env "DYNAMODB_TABLE_NAME")); [|discriminate].
    destruct (boto3_resource env) as [[]|e]; [|discriminate].
    destruct (truthy (getenv env "GOOGLE_CREDENTIALS_FILE")); [|discriminate].
    destruct (_get_drive_service env) as [[]|e]; [|discriminate].
    cbn [shared_drive_id].
    destruct (truthy (getenv env "GOOGLE_SHARED_DRIVE_ID")).
    + destruct (_verify_shared_drive_access env _) as [[[]|e] l]; [|discriminate].
      intros [= <- _]. repeat split.
    + intros [= <- _]. repeat split.
Qed.

Lemma app_needs_configuration_witness :
  DataWriterApp__init__ env_without_credentials
  = (Refused (ValueError "GOOGLE_CREDENTIALS_FILE environment variable is required"), []).
Proof.
  destruct (app_needs_configuration env_without_credentials) as (_ & H & _).
  apply H; reflexivity.
Defined.

(** X14.  With credentials and a Drive service, the uploader is built without a
    check when no shared drive is set; when one is set, the drive is asked
    for once: a refusal is logged twice and raised as a [ValueError] that
    quotes it, an answer is logged and the uploader is built for that
    drive. *)
Theorem shared_drive_is_checked_at_construction env :
  truthy (getenv env "GOOGLE_CREDENTIALS_FILE") = true ->
  _get_drive_service env = Ok tt ->
  (truthy (getenv env "GOOGLE_SHARED_DRIVE_ID") = false ->
   exists self, GoogleDriveUploader__init__ env = (Ok self, [])
                /\ file_cache self = ∅)
  /\ (forall shared e,
        getenv env "GOOGLE_SHARED_DRIVE_ID" = Some shared -> shared <> "" ->
        drives_get env shared = Refused e ->
        GoogleDriveUploader__init__ env
        = (Refused (ValueError ("Cannot access shared drive: " ++ exception_text e)%string),
           [(ERROR, Cannot_access_shared_drive shared e);
            (ERROR, Make_sure_the_service_account_has_been_added)]))
  /\ (forall shared drive_name,
        getenv env "GOOGLE_SHARED_DRIVE_ID" = Some shared -> shared <> "" ->
        drives_get env shared = Ok drive_name ->
        exists self,
          GoogleDriveUploader__init__ env
          = (Ok self,
             [(INFO, Verified_access_to_shared_drive (default "Unknown" drive_name) shared)])
          /\ shared_drive_id self = Some shared).
Proof.
  intros Hcreds Hservice.
  unfold GoogleDriveUploader__init__. rewrite Hcreds, Hservice. cbn [shared_drive_id].
  split; [|split].
  - intros ->. eexists. split; reflexivity.
  - intros shared e Hshared Hne Hget. rewrite Hshared.
    assert (Ht : truthy (Some shared) = true).
    { simpl. destruct (String.eqb_spec shared ""); [congruence|reflexivity]. }
    rewrite Ht. unfold _verify_shared_drive_access. simpl default. rewrite Hget.
    reflexivity.
  - intros shared drive_name Hshared Hne Hget. rewrite Hshared.
    assert (Ht : truthy (Some shared) = true).
    { simpl. destruct (String.eqb_spec shared ""); [congruence|reflexivity]. }
    rewrite Ht. unfold _verify_shared_drive_access. simpl default. rewrite Hget.
    eexists. split; reflexivity.
Qed.

Lemma shared_drive_is_checked_at_construction_witness :
  GoogleDriveUploader__init__ env_with_lost_drive
  = (Refused (ValueError "Cannot access shared drive: notFound"),
     [(ERROR, Cannot_access_shared_drive "drive0" (OtherException "notFound"));
      (ERROR, Make_sure_the_service_account_has_been_added)]).
Proof.
  destruct (shared_drive_is_checked_at_construction env_with_lost_drive eq_refl eq_refl)
    as (_ & H & _).
  apply (H "drive0" (OtherException "notFound")).
  - reflexivity.
  - discriminate.
  - reflexivity.
Defined.

(** X15.  When the table name or the credentials file is not set, [main] raises,
    logs the application error last, builds no application and leaves the
    world as it was: no clock reading, no scan, no Drive request. *)
Theorem main_without_configuration_runs_nothing fuel due env w :
  truthy (getenv env "DYNAMODB_TABLE_NAME") = false
  \/ truthy (getenv env "GOOGLE_CREDENTIALS_FILE") = false ->
  exists e logs,
    main fuel due env w = (Raise e, None, w, (logs ++ [(ERROR, Application_error e)])%list).
Proof.
  intros Hmissing.
  assert (Hinit : exists e logs, DataWriterApp__init__ env = (Refused e, logs)).
  { unfold DataWriterApp__init__, DynamoDBDataReader__init__, GoogleDriveUploader__init__.
    destruct (truthy (getenv env "DYNAMODB_TABLE_NAME")) eqn:Htable; [|eauto].
    destruct Hmissing as [H | Hcreds]; [discriminate|].
    destruct (boto3_resource env) as [[]|e]; [|eauto].
    rewrite Hcreds. eauto. }
  destruct Hinit as (e & logs & Hinit).
  exists e, logs. unfold main. rewrite Hinit. reflexivity.
Qed.

Lemma main_without_configuration_runs_nothing_witness :
  exists e logs,
    main 2 [Read_and_write_data] env_without_credentials demo_world
    = (Raise e, None, demo_world, logs ++ [(ERROR, Application_error e)]).
Proof.
  apply (main_without_configuration_runs_nothing 2 [Read_and_write_data]
           env_without_credentials demo_world).
  right. reflexivity.
Defined.

(** X16.  [health_check] reports healthy exactly when both AWS keys and the
    credentials file are set and the file exists, and degraded otherwise;
    the entries of [services] say which part is missing. *)
Theorem health_check_status os_environ path_exists now_isoformat sys_version :
  let report := health_check os_environ path_exists now_isoformat sys_version in
  (status report = "healthy" <-> fully_configured os_environ path_exists)
  /\ (status report = "healthy" \/ status report = "degraded")
  /\ (status report = "healthy" ->
      services report !! "aws" = Some "configured"
      /\ services report !! "google_drive" = Some "configured")
  /\ (services report !! "aws" = Some "configured"
      <-> truthy (os_environ !! "AWS_ACCESS_KEY_ID") = true
          /\ truthy (os_environ !! "AWS_SECRET_ACCESS_KEY") = true)
  /\ (services report !! "google_drive" = Some "credentials_file_missing"
      <-> truthy (os_environ !! "GOOGLE_CREDENTIALS_FILE") = true
          /\ path_exists (default "" (os_environ !! "GOOGLE_CREDENTIALS_FILE")) = false).
Proof.
  unfold health_check, fully_configured.
  destruct (truthy (os_environ !! "AWS_ACCESS_KEY_ID")),
    (truthy (os_environ !! "AWS_SECRET_ACCESS_KEY")),
    (truthy (os_environ !! "GOOGLE_CREDENTIALS_FILE")),
    (path_exists (default "" (os_environ !! "GOOGLE_CREDENTIALS_FILE")));
    cbn; repeat split; intros; try tauto; try discriminate;
    repeat match goal with H : _ /\ _ |- _ => destruct H end;
    try discriminate; try (left; reflexivity); try (right; reflexivity).
Qed.
